(** * Ramses views: nested-resource resolution, dual-backend reads and
      generated REST views

    A shallow embedding of [ramses/views.py].  Python values are a small
    inductive universe, dictionaries are [gmap string value], and every
    view method is a function in a state-and-exception monad whose state
    holds the view's own [_params] dictionary, the backend store, and the
    log of backend calls issued so far.  Everything the views obtain from
    outside the repository (the nefertari engine, the ES client, the
    inherited [needs_confirmation], Python's [str]) is an interface. *)

From stdpp Require Import gmap strings list fin_maps pretty.

#[local] Set Warnings "-register-all".

(** ** Python values, exceptions and the builtins the views use *)

Module Py.

Inductive value :=
| VNone
| VBool (b : bool)
| VInt (z : Z)
| VStr (s : string)
| VList (l : list value)
| VObj (attrs : gmap string value).

Abbreviation dict := (gmap string value).

Inductive exn :=
| JHTTPNotFound (msg : string)
| JHTTPMethodNotAllowed
| AttributeError
| TypeError
| IndexError.

Inductive result (A : Type) :=
| Ok (a : A)
| Err (e : exn).
Arguments Ok {A} a.
Arguments Err {A} e.

Definition rbind {A B} (r : result A) (k : A → result B) : result B :=
  match r with
  | Ok a => k a
  | Err e => Err e
  end.

(** [d.get(k)]: the value, or Python's [None]. *)
Definition dict_get (d : dict) (k : string) : value :=
  default VNone (d !! k).

(** [d.pop(k, dflt)]: the popped value and the dictionary without [k]. *)
Definition dict_pop (d : dict) (k : string) (dflt : value) : value * dict :=
  (default dflt (d !! k), delete k d).

(** [d.update(kw)]: bindings of [kw] win. *)
Definition dict_update (d kw : dict) : dict := kw ∪ d.

(** [getattr(o, name, dflt)] on an entity or document. *)
Definition getattr_default (o : value) (name : string) (dflt : value) : value :=
  match o with
  | VObj attrs => default dflt (attrs !! name)
  | _ => dflt
  end.

(** [getattr(o, name)]: a missing attribute raises. *)
Definition getattr (o : value) (name : string) : result value :=
  match o with
  | VObj attrs =>
      match attrs !! name with
      | Some v => Ok v
      | None => Err AttributeError
      end
  | _ => Err AttributeError
  end.

(** The separators the views split on: ['_'] and ['/']. *)
Definition underscore : Ascii.ascii := Eval cbv in Ascii.ascii_of_nat 95.
Definition slash : Ascii.ascii := Eval cbv in Ascii.ascii_of_nat 47.

(** The part of [s] after the first occurrence of [c], if [c] occurs:
    [s.split(c, 1)[1]], whose failure is an [IndexError]. *)
Fixpoint after_first (c : Ascii.ascii) (s : string) : option string :=
  match s with
  | EmptyString => None
  | String a rest => if Ascii.eqb a c then Some rest else after_first c rest
  end.

Definition split1_second (c : Ascii.ascii) (s : string) : result string :=
  match after_first c s with
  | Some rest => Ok rest
  | None => Err IndexError
  end.

(** [s.split(c)[-1]]: the segment after the last [c]. *)
Fixpoint last_segment_from (acc : string) (c : Ascii.ascii) (s : string)
    : string :=
  match s with
  | EmptyString => acc
  | String a rest =>
      if Ascii.eqb a c then last_segment_from EmptyString c rest
      else last_segment_from (acc +:+ String a EmptyString) c rest
  end.

Definition last_segment (c : Ascii.ascii) (s : string) : string :=
  last_segment_from EmptyString c s.

(** [sep.join(items)]: every item has to be a string. *)
Fixpoint join (sep : string) (items : list value) : result string :=
  match items with
  | [] => Ok EmptyString
  | [VStr s] => Ok s
  | VStr s :: rest => rbind (join sep rest) (λ t, Ok (s +:+ sep +:+ t))
  | _ :: _ => Err TypeError
  end.

(** Iteration, as the comprehension over a relation attribute needs it:
    a list yields its members, a string its characters, a mapping its
    keys; nothing else is iterable. *)
Definition chars (s : string) : list value :=
  (λ a, VStr (String a EmptyString)) <$> String.list_ascii_of_string s.

Definition iter (v : value) : result (list value) :=
  match v with
  | VList l => Ok l
  | VStr s => Ok (chars s)
  | VObj attrs => Ok ((λ kv, VStr kv.1) <$> map_to_list attrs)
  | _ => Err TypeError
  end.

(** [f(k=v, **splat)]: a keyword given twice is a [TypeError] raised by
    the call itself. *)
Definition with_keyword (k : string) (v : value) (splat : dict) : result dict :=
  match splat !! k with
  | Some _ => Err TypeError
  | None => Ok (<[k := v]> splat)
  end.

End Py.
Export Py.

(** ** The view classes and [generate_rest_view] *)

(** Maps of HTTP method to view method name. *)
Definition collection_methods : list (string * string) :=
  [("get", "index"); ("post", "create"); ("put", "update_many");
   ("patch", "update_many"); ("delete", "delete_many")].

Definition item_methods : list (string * string) :=
  [("get", "show"); ("post", "create"); ("put", "update");
   ("patch", "update"); ("delete", "delete")].

Inductive py_class :=
| BaseView
| CollectionView
| ESBaseView
| ESCollectionView
| ItemSubresourceBaseView
| ItemAttributeView
| ItemSingularView.

#[global] Instance py_class_eq_dec : EqDecision py_class.
Proof. solve_decision. Defined.

(** The names each class body defines. *)
Definition class_body (c : py_class) : list string :=
  match c with
  | BaseView =>
      ["__init__"; "resolve_kw"; "_location"; "_parent_queryset";
       "get_collection"; "get_item"]
  | CollectionView =>
      ["index"; "show"; "create"; "update"; "delete"; "delete_many";
       "update_many"]
  | ESBaseView =>
      ["_get_raw_terms"; "_parent_queryset_es"; "get_collection_es";
       "get_item_es"]
  | ESCollectionView => ["index"; "show"]
  | ItemSubresourceBaseView => []
  | ItemAttributeView => ["__init__"; "index"; "create"]
  | ItemSingularView => ["__init__"; "show"; "create"; "update"; "delete"]
  end.

(** Method resolution order among the classes of this file (nefertari's
    own base view comes last in each and is not listed). *)
Definition mro (c : py_class) : list py_class :=
  match c with
  | BaseView => [BaseView]
  | CollectionView => [CollectionView; BaseView]
  | ESBaseView => [ESBaseView; BaseView]
  | ESCollectionView =>
      [ESCollectionView; ESBaseView; CollectionView; BaseView]
  | ItemSubresourceBaseView => [ItemSubresourceBaseView; BaseView]
  | ItemAttributeView =>
      [ItemAttributeView; ItemSubresourceBaseView; BaseView]
  | ItemSingularView =>
      [ItemSingularView; ItemSubresourceBaseView; BaseView]
  end.

Definition isinstance (c k : py_class) : bool := bool_decide (k ∈ mro c).

(** The class that defines [name] for instances of [c], if any. *)
Definition find_method (c : py_class) (name : string) : option py_class :=
  head (filter (λ k, name ∈ class_body k) (mro c)).

(** The generated class: its base, its model class (by name), and the
    names bound to [property(_attr_error)]. *)
Record RESTView := {
  base_view_cls : py_class;
  _model_class : string;
  attr_errors : gset string
}.

Definition valid_attrs : list string :=
  collection_methods.*2 ++ item_methods.*2.

Definition missing_attrs (attrs : list string) : gset string :=
  list_to_set valid_attrs ∖ list_to_set attrs.

(** [attrs] defaults to [None], on which [set(attrs)] raises. *)
Definition generate_rest_view (model_cls : string)
    (attrs : option (list string)) (es_based attr_view singular : bool)
    : result RESTView :=
  match attrs with
  | None => Err TypeError
  | Some attrs =>
      let base :=
        if singular then ItemSingularView
        else if attr_view then ItemAttributeView
        else if es_based then ESCollectionView
        else CollectionView in
      Ok {| base_view_cls := base;
            _model_class := model_cls;
            attr_errors := missing_attrs attrs |}
  end.

(** Names bound in the body of the generated class. *)
Definition class_namespace (V : RESTView) : gset string :=
  {["_json_encoder"; "_model_class"]} ∪ attr_errors V.

Inductive member :=
| Method (owner : py_class) (name : string)
| Inherited (call : dict → result value).

Inductive invocation :=
| Runs (owner : py_class) (name : string)
| Returns (v : value)
| Raises (e : exn).

Section Lookup.
(** [__getattr__] of nefertari's base view, which Python consults when
    the ordinary lookup raises [AttributeError]. *)
Variable nefertari_getattr : string → result (dict → result value).

(** [view.name] for a method name: a property of the generated class is
    found first and its getter [_attr_error] raises [AttributeError];
    otherwise the classes of the MRO are searched. *)
Definition view_getattr (V : RESTView) (name : string) : result member :=
  if decide (name ∈ attr_errors V) then
    rbind (nefertari_getattr name) (λ f, Ok (Inherited f))
  else
    match find_method (base_view_cls V) name with
    | Some k => Ok (Method k name)
    | None => rbind (nefertari_getattr name) (λ f, Ok (Inherited f))
    end.

(** Calling [view.name] with keyword arguments: which code runs, or
    what is raised before any code of this file runs. *)
Definition invoke (V : RESTView) (name : string) (kwargs : dict) : invocation :=
  match view_getattr V name with
  | Ok (Method k n) => Runs k n
  | Ok (Inherited f) =>
      match f kwargs with
      | Ok v => Returns v
      | Err e => Raises e
      end
  | Err e => Raises e
  end.
End Lookup.

(** ** Resources, requests and view instances *)

Inductive resource :=
| Resource (id_name collection_name : string)
           (view : option RESTView) (parent : option resource).

Definition id_name (r : resource) : string :=
  match r with Resource i _ _ _ => i end.
Definition collection_name (r : resource) : string :=
  match r with Resource _ c _ _ => c end.
Definition res_view (r : resource) : option RESTView :=
  match r with Resource _ _ v _ => v end.
Definition res_parent (r : resource) : option resource :=
  match r with Resource _ _ _ p => p end.

(** [hasattr(parent, 'view')]. *)
Definition hasattr_view (parent : option resource) : bool :=
  match parent with
  | Some p => bool_decide (is_Some (res_view p))
  | None => false
  end.

Record request := {
  path : string;
  matchdict : dict
}.

Record view := {
  cls : RESTView;
  _resource : resource;
  req : request
}.

(** [request.blank(request.path)] with the matchdict narrowed to the
    parent's id. *)
Definition parent_request (rq : request) (p : resource) : request :=
  {| path := path rq;
     matchdict := {[ id_name p := dict_get (matchdict rq) (id_name p) ]} |}.

(** [parent.view(parent.view._factory, req)], when the parent has a view.
    The new view gets a [_params] of its own, which [get_item] and
    [get_item_es] never read. *)
Definition parent_view (self : view) : option view :=
  match res_parent (_resource self) with
  | Some p =>
      match res_view p with
      | Some pcls =>
          Some {| cls := pcls; _resource := p;
                  req := parent_request (req self) p |}
      | None => None
      end
  | None => None
  end.

(** ** The backend interface and the monad of view methods *)

(** Calls that leave the view for the store or the index. *)
Inductive call :=
| CGetCollection (model : string) (params : dict)
| CFilterObjects (model : string) (objects : value) (params : dict)
| CFilterFirst (model : string) (objects : value) (kwargs : dict)
| CGetResource (model : string) (kwargs : dict)
| CDeleteMany (model : string) (objects : list value)
| CUpdateMany (model : string) (objects : list value) (params : dict)
| CObjUpdate (model : string) (obj : value) (params : dict)
| CESGetCollection (index : string) (params : dict).

Definition is_mutation (c : call) : bool :=
  match c with
  | CDeleteMany _ _ | CUpdateMany _ _ _ | CObjUpdate _ _ _ => true
  | _ => false
  end.

Definition is_index_query (c : call) : bool :=
  match c with
  | CESGetCollection _ _ => true
  | _ => false
  end.

(** What the views take from outside this repository.  Reads cannot change
    the store; querysets are lists, so [objects.count()] is a length. *)
Class Backend (Store : Type) := {
  (* Python's [str] *)
  py_str : value → string;
  (* [self.needs_confirmation()], decided on the view's [_params] *)
  needs_confirmation : dict → bool;
  (* [_model_class.get_collection] called with the params *)
  model_get_collection : string → dict → Store → result (list value);
  (* [_model_class.filter_objects(objects, ...)] *)
  model_filter_objects :
    string → value → dict → Store → result (list value);
  (* [_model_class.filter_objects(objects, first=True, ...)] *)
  model_filter_first : string → value → dict → Store → result value;
  (* [_model_class.get_resource] *)
  model_get_resource : string → dict → Store → result value;
  (* [_model_class._delete_many(objects)] *)
  model_delete_many : string → list value → Store → result unit * Store;
  (* [_model_class._update_many(objects, ...)] *)
  model_update_many :
    string → list value → dict → Store → result unit * Store;
  (* [obj.update(params)] on an instance of the named model *)
  obj_update : string → value → dict → Store → result unit * Store;
  (* [ES(name).get_collection] *)
  es_get_collection : string → dict → Store → result (list value)
}.

Inductive response :=
| Objects (objects : list value)
| JHTTPOk (msg : string).

Record world (Store : Type) := {
  _params : dict;
  store : Store;
  calls : list call
}.
Arguments _params {Store} w.
Arguments store {Store} w.
Arguments calls {Store} w.

Definition M (Store A : Type) : Type := world Store → result A * world Store.

Section Monad.
Context {Store : Type}.

Definition ret {A} (a : A) : M Store A := λ w, (Ok a, w).

Definition raise {A} (e : exn) : M Store A := λ w, (Err e, w).

Definition lift {A} (r : result A) : M Store A := λ w, (r, w).

Definition bind {A B} (m : M Store A) (k : A → M Store B) : M Store B :=
  λ w, match m w with
       | (Ok a, w') => k a w'
       | (Err e, w') => (Err e, w')
       end.

Definition get_params : M Store dict := λ w, (Ok (_params w), w).

Definition set_params (d : dict) : M Store unit :=
  λ w, (Ok tt, {| _params := d; store := store w; calls := calls w |}).

Definition logged (c : call) (w : world Store) : world Store :=
  {| _params := _params w; store := store w; calls := calls w ++ [c] |}.

(** A backend read: logged, the store untouched. *)
Definition read {A} (c : call) (f : Store → result A) : M Store A :=
  λ w, (f (store w), logged c w).

(** A backend mutation: logged, the store replaced. *)
Definition write (c : call) (f : Store → result unit * Store)
    : M Store unit :=
  λ w, ((f (store w)).1,
        {| _params := _params w; store := (f (store w)).2;
           calls := calls w ++ [c] |}).
End Monad.

Notation "'let*' x ':=' m 'in' k" := (bind m (λ x, k))
  (at level 10, x pattern, m at level 100, k at level 200).

(** [resolve_kw]: every key loses its prefix up to the first underscore.
    Keys are visited in the map's order; Python visits them in hash order,
    which only shows when two keys resolve to the same name. *)
Definition resolve_kw (kwargs : dict) : result dict :=
  foldr (λ kv acc,
           rbind acc (λ d,
           rbind (split1_second underscore kv.1) (λ k, Ok (<[k := kv.2]> d))))
        (Ok ∅) (map_to_list kwargs).

Definition not_found_msg (model item_id : string) : string :=
  model +:+ "(id=" +:+ item_id +:+ ") resource not found".

(** ** The view methods *)

Section Views.
Context {Store : Type} {B : Backend Store}.

#[local] Abbreviation M := (M Store).

(** *** BaseView *)

(** The end of [get_item]: the lookup, filtered by the parent's
    relation when there is one. *)
Definition lookup_item (c : RESTView) (kw : dict) (objects : value) : M value :=
  match objects with
  | VNone =>
      read (CGetResource (_model_class c) kw)
           (model_get_resource (_model_class c) kw)
  | _ =>
      let* _ := lift (with_keyword "first" (VBool true) kw) in
      read (CFilterFirst (_model_class c) objects kw)
           (model_filter_first (_model_class c) objects kw)
  end.

(** [get_item], with [_parent_queryset] unfolded in it so that the walk
    up the resource tree is structural.  Only the keyword arguments are
    used, never [_params]. *)
Fixpoint get_item_at (r : resource) (c : RESTView) (rq : request)
    (kwargs : dict) {struct r} : M value :=
  let* kw := lift (resolve_kw kwargs) in
  let* objects :=
    match r with
    | Resource _ coll _ (Some p) =>
        match res_view p with
        | Some pcls =>
            let prq := parent_request rq p in
            let* obj := get_item_at p pcls prq (matchdict prq) in
            if isinstance (base_view_cls c) ItemSubresourceBaseView
            then ret VNone
            else ret (getattr_default obj coll VNone)
        | None => ret VNone
        end
    | _ => ret VNone
    end in
  lookup_item c kw objects.

Definition get_item (self : view) (kwargs : dict) : M value :=
  get_item_at (_resource self) (cls self) (req self) kwargs.

Definition _parent_queryset (self : view) : M value :=
  match parent_view self with
  | Some pv =>
      let* obj := get_item pv (matchdict (req pv)) in
      if isinstance (base_view_cls (cls self)) ItemSubresourceBaseView
      then ret VNone
      else ret (getattr_default obj
                  (collection_name (_resource self)) VNone)
  | None => ret VNone
  end.

Definition get_collection (self : view) (kwargs : dict) : M (list value) :=
  let* p := get_params in
  let* _ := set_params (dict_update p kwargs) in
  let* objects := _parent_queryset self in
  let* p := get_params in
  match objects with
  | VNone =>
      read (CGetCollection (_model_class (cls self)) p)
           (model_get_collection (_model_class (cls self)) p)
  | _ =>
      read (CFilterObjects (_model_class (cls self)) objects p)
           (model_filter_objects (_model_class (cls self)) objects p)
  end.

(** *** CollectionView *)

Definition index (self : view) (kwargs : dict) : M (list value) :=
  get_collection self ∅.

Definition show (self : view) (kwargs : dict) : M value :=
  get_item self kwargs.

(** [objects.count()] *)
Definition count (objects : list value) : Z := Z.of_nat (length objects).

(** ['<verb> %s %s(s) objects' % (count, model)] *)
Definition count_msg (verb : string) (count : Z) (model : string) : string :=
  verb +:+ " " +:+ py_str (VInt count) +:+ " " +:+ model +:+ "(s) objects".

Definition delete_many (self : view) (kwargs : dict) : M response :=
  let* objects := get_collection self ∅ in
  let count := count objects in
  let* p := get_params in
  if needs_confirmation p then ret (Objects objects)
  else
    let* _ := write (CDeleteMany (_model_class (cls self)) objects)
                    (model_delete_many (_model_class (cls self)) objects) in
    ret (JHTTPOk (count_msg "Deleted" count (_model_class (cls self)))).

Definition update_many (self : view) (kwargs : dict) : M response :=
  let* p := get_params in
  let _limit := (dict_pop p "_limit" VNone).1 in
  let* _ := set_params (dict_pop p "_limit" VNone).2 in
  let* objects := get_collection self {[ "_limit" := _limit ]} in
  let* p := get_params in
  let* _ := write (CUpdateMany (_model_class (cls self)) objects p)
                  (model_update_many (_model_class (cls self)) objects p) in
  ret (JHTTPOk (count_msg "Updated" (count objects)
                  (_model_class (cls self)))).

(** *** ESBaseView *)

Definition _get_raw_terms : M string :=
  let* p := get_params in
  let* search_params :=
    match p !! "q" with
    | Some v => let* _ := set_params (delete "q" p) in ret [v]
    | None => ret []
    end in
  lift (join " AND " search_params).

(** The end of [get_item_es]: the membership check against the
    parent's ids, then the index query for one document. *)
Definition lookup_item_es (c : RESTView) (id_name item_id : string)
    (objects_ids : option (list string)) : M value :=
  let* _ :=
    match objects_ids with
    | Some ids =>
        if bool_decide (item_id ∈ ids) then ret tt
        else raise (JHTTPNotFound (not_found_msg (_model_class c) item_id))
    | None => ret tt
    end in
  let* kw := lift (resolve_kw {[ id_name := VStr item_id ]}) in
  let kw := <["__raise_on_empty" := VBool true]> (<["_limit" := VInt 1]> kw) in
  let* docs := read (CESGetCollection (_model_class c) kw)
                    (es_get_collection (_model_class c) kw) in
  match docs with
  | doc :: _ => ret doc
  | [] => raise IndexError
  end.

(** [get_item_es], with [_parent_queryset_es] unfolded in it.  Only a
    class below [ESBaseView] has a [get_item_es] to call on the parent
    view. *)
Fixpoint get_item_es_at (r : resource) (c : RESTView) (rq : request)
    (kwargs : dict) {struct r} : M value :=
  let item_id := py_str (dict_get kwargs (id_name r)) in
  let* objects_ids :=
    match r with
    | Resource _ coll _ (Some p) =>
        match res_view p with
        | Some pcls =>
            let prq := parent_request rq p in
            let* obj :=
              match find_method (base_view_cls pcls) "get_item_es" with
              | Some _ => get_item_es_at p pcls prq (matchdict prq)
              | None => raise AttributeError
              end in
            match getattr_default obj coll VNone with
            | VNone => ret None
            | ids => let* l := lift (iter ids) in ret (Some (py_str <$> l))
            end
        | None => ret None
        end
    | _ => ret None
    end in
  lookup_item_es c (id_name r) item_id objects_ids.

Definition get_item_es (self : view) (kwargs : dict) : M value :=
  get_item_es_at (_resource self) (cls self) (req self) kwargs.

Definition _parent_queryset_es (self : view) : M (option (list string)) :=
  match parent_view self with
  | Some pv =>
      let* obj :=
        match find_method (base_view_cls (cls pv)) "get_item_es" with
        | Some _ => get_item_es pv (matchdict (req pv))
        | None => raise AttributeError
        end in
      match getattr_default obj (collection_name (_resource self)) VNone with
      | VNone => ret None
      | ids => let* l := lift (iter ids) in ret (Some (py_str <$> l))
      end
  | None => ret None
  end.

(** The call [es.get_collection(_raw_terms=..., ...)] once its keyword
    argument is evaluated: [_params] is unpacked into the same call. *)
Definition es_send (self : view) (_raw_terms : string) : M (list value) :=
  let* p := get_params in
  let* kw := lift (with_keyword "_raw_terms" (VStr _raw_terms) p) in
  read (CESGetCollection (_model_class (cls self)) kw)
       (es_get_collection (_model_class (cls self)) kw).

(** The last statement of [get_collection_es]: the raw terms are taken
    (and the reserved key popped) before [_params] is unpacked. *)
Definition es_query (self : view) : M (list value) :=
  let* _raw_terms := _get_raw_terms in
  es_send self _raw_terms.

Definition get_collection_es (self : view) (kwargs : dict) : M (list value) :=
  let* objects_ids := _parent_queryset_es self in
  match objects_ids with
  | Some [] => ret []
  | Some ids =>
      let* p := get_params in
      let* _ := set_params (<["id" := VList (VStr <$> ids)]> p) in
      es_query self
  | None => es_query self
  end.

(** *** ESCollectionView

    [es_index] and [es_show] are [ESCollectionView.index] and
    [ESCollectionView.show]. *)

Definition es_index (self : view) (kwargs : dict) : M (list value) :=
  get_collection_es self kwargs.

Definition es_show (self : view) (kwargs : dict) : M value :=
  get_item_es self kwargs.

(** *** ItemSingularView

    [singular_show] and [singular_delete] are [ItemSingularView.show] and
    [ItemSingularView.delete]. *)

(** [self.attr], set by [__init__] from the request path. *)
Definition singular_attr (self : view) : string :=
  last_segment slash (path (req self)).

Definition singular_show (self : view) (kwargs : dict) : M value :=
  let* parent_obj := get_item self kwargs in
  lift (getattr parent_obj (singular_attr self)).

Definition singular_delete (self : view) (kwargs : dict) : M response :=
  let* parent_obj := get_item self kwargs in
  let* _ := write (CObjUpdate (_model_class (cls self)) parent_obj
                     {[ singular_attr self := VNone ]})
                  (obj_update (_model_class (cls self)) parent_obj
                     {[ singular_attr self := VNone ]}) in
  ret (JHTTPOk "Deleted").
End Views.

(** ** Vocabulary of the statements *)

Section Vocabulary.
Context {Store : Type}.

(** [w'] is [w] after backend reads only: same [_params], same store,
    and a log grown by calls that are not mutations. *)
Definition reads_only (w w' : world Store) : Prop :=
  _params w' = _params w ∧ store w' = store w ∧
  ∃ l : list call,
    calls w' = calls w ++ l ∧ Forall (λ c, is_mutation c = false) l.

Definition reader {A} (m : M Store A) : Prop := ∀ w, reads_only w (m w).2.
End Vocabulary.

(** What [es_query] sends on filters [p]: a query without the reserved
    key, carrying the popped terms, and otherwise the filters of [p]. *)
Definition sent_by (model : string) (p : dict) (c : call) : Prop :=
  ∃ (kw : dict) (t : string),
    c = CESGetCollection model kw ∧
    kw !! "q" = None ∧
    kw !! "_raw_terms" = Some (VStr t) ∧
    match p !! "q" with None => t = "" | Some v => v = VStr t end ∧
    ∀ k, k ≠ "q" → k ≠ "_raw_terms" → kw !! k = p !! k.

(** Filters the query can be built from: a string under ['q'] if
    anything, and no ['_raw_terms'] to clash with the keyword. *)
Definition well_formed_query (p : dict) : Prop :=
  match p !! "q" with None => True | Some v => ∃ t, v = VStr t end ∧
  p !! "_raw_terms" = None.

(** The filters [get_collection_es] queries with once the resolver has
    answered: the restriction, if any, is stored under ['id']. *)
Definition restricted_params (restriction : option (list string))
    (p : dict) : dict :=
  match restriction with
  | Some ids => <["id" := VList (VStr <$> ids)]> p
  | None => p
  end.

(** ** A small concrete backend and resource tree

    Tables are lists of entities per model name; lookups return the first
    row, filters return the relation they are given.  Used to run the
    views on concrete requests. *)

Module Toy.

Definition Store : Type := gmap string (list value).

Definition rows (name : string) (s : Store) : list value :=
  default [] (s !! name).

Definition str (v : value) : string :=
  match v with
  | VNone => "None"
  | VBool true => "True"
  | VBool false => "False"
  | VInt z => pretty z
  | VStr s => s
  | VList _ => "[...]"
  | VObj _ => "{...}"
  end.

Definition set_attrs (p : dict) (o : value) : value :=
  match o with
  | VObj attrs => VObj (p ∪ attrs)
  | _ => o
  end.

Definition first_row (name : string) (l : list value) : result value :=
  match l with
  | o :: _ => Ok o
  | [] => Err (JHTTPNotFound name)
  end.

Definition related (objects : value) : list value :=
  match objects with
  | VList l => l
  | _ => []
  end.

Definition es_rows (name : string) (q : dict) (s : Store)
    : result (list value) :=
  match rows name s, q !! "__raise_on_empty" with
  | [], Some (VBool true) => Err (JHTTPNotFound name)
  | l, _ => Ok l
  end.

#[global] Instance backend : Backend Store := {|
  py_str := str;
  needs_confirmation p :=
    match p !! "__confirmation" with Some _ => false | None => true end;
  model_get_collection name _ s := Ok (rows name s);
  model_filter_objects _ objects _ _ := Ok (related objects);
  model_filter_first name objects _ _ := first_row name (related objects);
  model_get_resource name _ s := first_row name (rows name s);
  model_delete_many name _ s := (Ok tt, <[name := []]> s);
  model_update_many name objects p s :=
    (Ok tt, <[name := set_attrs p <$> objects]> s);
  obj_update name o p s :=
    (Ok tt, <[name := set_attrs p o :: tail (rows name s)]> s);
  es_get_collection := es_rows
|}.

(** nefertari's fallback: a canonical operation is answered with an action
    that rejects the call. *)
Definition not_allowed_action (kwargs : dict) : result value :=
  Err JHTTPMethodNotAllowed.

Definition hook (name : string) : result (dict → result value) :=
  if bool_decide (name ∈ valid_attrs) then Ok not_allowed_action
  else Err AttributeError.

(** The tree [/authors/{author_id}/books/{book_id}], with a singular
    [/authors/{author_id}/profile]. *)
Definition view_of (model : string) (base : py_class) : RESTView :=
  {| base_view_cls := base; _model_class := model; attr_errors := ∅ |}.

Definition root : resource := Resource "" "" None None.

Definition authors (base : py_class) : resource :=
  Resource "author_id" "authors" (Some (view_of "Author" base)) (Some root).

Definition books (base : py_class) : resource :=
  Resource "book_id" "books" (Some (view_of "Book" base))
           (Some (authors base)).

Definition profile : resource :=
  Resource "author_id" "profile"
           (Some (view_of "Author" ItemSingularView))
           (Some (authors CollectionView)).

Definition authors_view (base : py_class) : view :=
  {| cls := view_of "Author" base; _resource := authors base;
     req := {| path := "/authors"; matchdict := ∅ |} |}.

Definition books_view (base : py_class) (md : dict) : view :=
  {| cls := view_of "Book" base; _resource := books base;
     req := {| path := "/authors/1/books"; matchdict := md |} |}.

Definition profile_view : view :=
  {| cls := view_of "Author" ItemSingularView; _resource := profile;
     req := {| path := "/authors/1/profile";
               matchdict := {[ "author_id" := VStr "1" ]} |} |}.

Definition author (books profile : value) : value :=
  VObj (<["id" := VInt 1]> (<["books" := books]> {[ "profile" := profile ]})).

Definition book (id : Z) : value := VObj {[ "id" := VInt id ]}.

Definition world_of (p : dict) (s : Store) : world Store :=
  {| _params := p; store := s; calls := [] |}.

(** One author with two books and a profile; one author with no book yet;
    one author document without the relation. *)
Definition library : Store :=
  <["Book" := [book 7; book 8]]>
    {[ "Author" := [author (VList [VInt 7; VInt 8])
                           (VObj {[ "bio" := VStr "b" ]})] ]}.

Definition lonely : Store :=
  {[ "Author" := [author (VList []) VNone] ]}.

Definition bare : Store :=
  <["Book" := [book 7]]> {[ "Author" := [VObj {[ "id" := VInt 1 ]}] ]}.

Definition md : dict := {[ "author_id" := VStr "1" ]}.

End Toy.

(** ** ItemAttributeView, and a deeper tree *)

(** The fold of [resolve_kw] over any list of items. *)
Definition resolve_items (l : list (string * value)) : result dict :=
  foldr (λ kv acc,
           rbind acc (λ d,
           rbind (split1_second underscore kv.1) (λ k, Ok (<[k := kv.2]> d))))
        (Ok ∅) l.

Section AttributeViews.
Context {Store : Type} {B : Backend Store}.

(** [ItemAttributeView.index]; [self.attr] is set by [__init__] from the
    request path, as for singular views. *)
Definition attribute_index (self : view) (kwargs : dict) : M Store value :=
  let* obj := get_item self kwargs in
  lift (getattr obj (singular_attr self)).
End AttributeViews.

(** [/authors/{author_id}/books/{book_id}/chapters/{chapter_id}] *)
Module Deep.

Definition chapters : resource :=
  Resource "chapter_id" "chapters"
           (Some (Toy.view_of "Chapter" CollectionView))
           (Some (Toy.books CollectionView)).

Definition chapters_view (md : dict) : view :=
  {| cls := Toy.view_of "Chapter" CollectionView; _resource := chapters;
     req := {| path := "/authors/1/books/7/chapters"; matchdict := md |} |}.

Definition md : dict :=
  <["author_id" := VStr "1"]> {[ "book_id" := VStr "7" ]}.

(** An index-backed [books] under a store-only [authors]. *)
Definition mixed_books_view : view :=
  {| cls := Toy.view_of "Book" ESCollectionView;
     _resource := Resource "book_id" "books"
                    (Some (Toy.view_of "Book" ESCollectionView))
                    (Some (Toy.authors CollectionView));
     req := {| path := "/authors/1/books"; matchdict := Toy.md |} |}.

(** A top-level index-backed view whose id parameter has no prefix. *)
Definition flat_view : view :=
  {| cls := Toy.view_of "Book" ESCollectionView;
     _resource := Resource "id" "books"
                    (Some (Toy.view_of "Book" ESCollectionView))
                    (Some Toy.root);
     req := {| path := "/books"; matchdict := ∅ |} |}.

(** The backend of [Toy] with an index that answers an empty list
    instead of raising. *)
Definition lenient : Backend Toy.Store := {|
  py_str := Toy.str;
  needs_confirmation := needs_confirmation (Backend := Toy.backend);
  model_get_collection := model_get_collection (Backend := Toy.backend);
  model_filter_objects := model_filter_objects (Backend := Toy.backend);
  model_filter_first := model_filter_first (Backend := Toy.backend);
  model_get_resource := model_get_resource (Backend := Toy.backend);
  model_delete_many := model_delete_many (Backend := Toy.backend);
  model_update_many := model_update_many (Backend := Toy.backend);
  obj_update := obj_update (Backend := Toy.backend);
  es_get_collection name _ s := Ok (Toy.rows name s)
|}.

Definition tags_view : view :=
  {| cls := Toy.view_of "Author" ItemAttributeView;
     _resource := Resource "author_id" "tags"
                    (Some (Toy.view_of "Author" ItemAttributeView))
                    (Some (Toy.authors CollectionView));
     req := {| path := "/authors/1/tags"; matchdict := Toy.md |} |}.

End Deep.

(** ** Authentication set-up ([ramses/auth.py])

    The functions configure a Pyramid configurator.  What they do to it is
    recorded as a list of actions, in order; the registry settings and the
    RAML root are inputs.  Policy constructors and the configurator's own
    methods are taken not to raise. *)

Module Auth.

Inductive error :=
| ValueError (msg : string)
| KeyError (key : value)
| TypeError.

Inductive res (A : Type) :=
| Done (a : A)
| Failed (e : error).
Arguments Done {A} a.
Arguments Failed {A} e.

(** An argument of a policy: a plain value, an attribute of the
    registry's [auth_model], or [auth_model] itself. *)
Inductive param :=
| Setting (v : value)
| AuthModelAttr (name : string)
| AuthModel.

Record policy := {
  policy_cls : string;
  policy_args : gmap string param
}.

Inductive action :=
| LogInfo (msg : string)
| LogError (msg : string) (cause : error)
| AddRequestMethod (callable name : string) (reify : bool)
| RootAdd (member view_base prefix factory : string)
| SetAuthenticationPolicy (p : policy)
| SetAuthorizationPolicy (cls : string)
| GetOrCreate (username : value) (defaults : dict)
| Commit.

Record scheme := {
  name : string;
  type : string;
  settings : option dict
}.

Record raml_root := {
  secured_by : option (list value);
  security_schemes : option (list scheme)
}.

(** Python's truth value. *)
Definition truthy (v : value) : bool :=
  match v with
  | VNone => false
  | VBool b => b
  | VInt z => negb (Z.eqb z 0)
  | VStr s => negb (String.eqb s "")
  | VList l => match l with [] => false | _ => true end
  | VObj m => negb (bool_decide (dom m = ∅))
  end.

(** [format] of a hashable value. *)
Definition str_atom (v : value) : string :=
  match v with
  | VNone => "None"
  | VBool true => "True"
  | VBool false => "False"
  | VInt z => pretty z
  | VStr s => s
  | _ => ""
  end.

(** [d[key]] on a dictionary keyed by strings: a list or a mapping cannot
    be hashed, any other key that is not one of the strings is missing. *)
Definition getitem {A} (d : gmap string A) (key : value) : res A :=
  match key with
  | VList _ | VObj _ => Failed TypeError
  | VStr k =>
      match d !! k with
      | Some a => Done a
      | None => Failed (KeyError key)
      end
  | _ => Failed (KeyError key)
  end.

(** [key in d]. *)
Definition contains {A} (d : gmap string A) (key : value) : res bool :=
  match key with
  | VList _ | VObj _ => Failed TypeError
  | VStr k => Done (bool_decide (is_Some (d !! k)))
  | _ => Done false
  end.

Definition common_prefix : string := "auth".
Definition common_factory : string := "nefertari.acl.AuthenticationACL".

Definition _setup_ticket_policy (registry : dict) (params : dict)
    : res policy * list action :=
  let log := [LogInfo "Configuring Pyramid Ticket Authn policy"] in
  match params !! "secret" with
  | None =>
      (Failed (ValueError
                 "Missing required security scheme settings: secret"), log)
  | Some secret =>
      match getitem registry secret with
      | Failed e => (Failed e, log)
      | Done v =>
          let args :=
            <["callback" := AuthModelAttr "get_groups_by_userid"]>
              (<["secret" := Setting v]> (Setting <$> params)) in
          (Done {| policy_cls := "AuthTktAuthenticationPolicy";
                   policy_args := args |},
           log ++
           [AddRequestMethod "get_authuser_by_userid" "user" true;
            RootAdd "register" "TicketAuthRegisterView"
              common_prefix common_factory;
            RootAdd "login" "TicketAuthLoginView"
              common_prefix common_factory;
            RootAdd "logout" "TicketAuthLogoutView"
              common_prefix common_factory])
      end
  end.

Definition _setup_apikey_policy (registry : dict) (params : dict)
    : res policy * list action :=
  let args :=
    <["user_model" := AuthModel]>
      (<["credentials_callback" := AuthModelAttr "get_token_credentials"]>
         (<["check" := AuthModelAttr "get_groups_by_token"]>
            (Setting <$> params))) in
  (Done {| policy_cls := "ApiKeyAuthenticationPolicy";
           policy_args := args |},
   [LogInfo "Configuring ApiKey Authn policy";
    AddRequestMethod "get_authuser_by_name" "user" true;
    RootAdd "register" "TokenAuthRegisterView" common_prefix common_factory;
    RootAdd "token" "TokenAuthClaimView" common_prefix common_factory;
    RootAdd "reset_token" "TokenAuthResetView"
      common_prefix common_factory]).

(** [AUTHENTICATION_POLICIES] *)
Definition AUTHENTICATION_POLICIES
    : gmap string (dict → dict → res policy * list action) :=
  <["x-ApiKey" := _setup_apikey_policy]>
    {[ "x-Ticket" := _setup_ticket_policy ]}.

(** [{scheme.name: scheme for scheme in ...}]: a later scheme replaces an
    earlier one of the same name. *)
Definition schemes_by_name (l : list scheme) : gmap string scheme :=
  foldl (λ m s, <[name s := s]> m) ∅ l.

Definition setup_auth_policies (registry : dict) (raml : raml_root)
    : res unit * list action :=
  let log := [LogInfo "Configuring auth policies"] in
  match List.filter truthy (default [] (secured_by raml)) with
  | [] =>
      (Done tt,
       log ++ [LogInfo
         "API is not secured. `secured_by` attribute value missing."])
  | first :: _ =>
      match security_schemes raml with
      | None => (Failed TypeError, log)
      | Some l =>
          match contains (schemes_by_name l) first with
          | Failed e => (Failed e, log)
          | Done false =>
              (Failed (ValueError
                 ("Undefined security scheme used in `secured_by`: "
                  +:+ str_atom first)), log)
          | Done true =>
              match getitem (schemes_by_name l) first with
              | Failed e => (Failed e, log)
              | Done scheme =>
                  match AUTHENTICATION_POLICIES !! type scheme with
                  | None =>
                      (Failed (ValueError
                         ("Unsupported security scheme type: "
                          +:+ type scheme)), log)
                  | Some policy_generator =>
                      let run :=
                        policy_generator registry
                          (default ∅ (settings scheme)) in
                      match run.1 with
                      | Failed e => (Failed e, log ++ run.2)
                      | Done authn_policy =>
                          (Done tt,
                           log ++ run.2 ++
                           [SetAuthenticationPolicy authn_policy;
                            SetAuthorizationPolicy
                              "ACLAuthorizationPolicy"])
                      end
                  end
              end
          end
      end
  end.

(** What [auth_model.get_or_create] can do. *)
Inductive creation :=
| Created (created : bool)
| Raising (e : error).

Definition missing_config : string :=
  "Failed to create system user. Missing config: %s".

(** [create_system_user]: a [KeyError] anywhere in the [try] block is
    logged, any other error passes through. *)
Definition create_system_user (get_or_create : value → dict → creation)
    (registry : dict) : res unit * list action :=
  let log := [LogInfo "Creating system user"] in
  let missing (k : string) :=
    (Done tt, log ++ [LogError missing_config (KeyError (VStr k))]) in
  match registry !! "system.user" with
  | None => missing "system.user"
  | Some s_user =>
      match registry !! "system.password" with
      | None => missing "system.password"
      | Some s_pass =>
          match registry !! "system.email" with
          | None => missing "system.email"
          | Some s_email =>
              let defaults : dict :=
                <["password" := s_pass]>
                  (<["email" := s_email]>
                     {[ "groups" := VList [VStr "admin"] ]}) in
              match get_or_create s_user defaults with
              | Created created =>
                  (Done tt,
                   log ++ GetOrCreate s_user defaults
                       :: (if created then [Commit] else []))
              | Raising (KeyError k) =>
                  (Done tt,
                   log ++ [GetOrCreate s_user defaults;
                           LogError missing_config (KeyError k)])
              | Raising e =>
                  (Failed e, log ++ [GetOrCreate s_user defaults])
              end
          end
      end
  end.

Definition includeme := create_system_user.

(** An action that changes the configurator (anything but logging). *)
Definition configures (a : action) : bool :=
  match a with
  | LogInfo _ | LogError _ _ => false
  | _ => true
  end.

Definition sets_policy (a : action) : bool :=
  match a with
  | SetAuthenticationPolicy _ | SetAuthorizationPolicy _ => true
  | _ => false
  end.

(** A small API: one ticket scheme, and a registry holding its secret. *)
Definition ticket_scheme : scheme :=
  {| name := "tickets"; type := "x-Ticket";
     settings := Some (<["secret" := VStr "auth_tkt_secret"]>
                         {[ "hashalg" := VStr "sha512" ]}) |}.

Definition api : raml_root :=
  {| secured_by := Some [VNone; VStr "tickets"; VStr "other"];
     security_schemes := Some [ticket_scheme] |}.

Definition registry : dict :=
  <["auth_tkt_secret" := VStr "s3cr3t"]>
    (<["system.user" := VStr "admin"]>
       {[ "system.password" := VStr "pw" ]}).

End Auth.

(** ** Basic facts: strings, dictionaries, the monad *)

Lemma resolve_kw_singleton (k : string) (v : value) :
  resolve_kw {[ k := v ]} =
  rbind (split1_second underscore k) (λ k', Ok {[ k' := v ]}).
Proof.
  unfold resolve_kw. rewrite map_to_list_singleton. simpl.
  destruct (split1_second underscore k); reflexivity.
Qed.

Lemma update_after_pop (p : dict) (k : string) (dflt : value) :
  dict_update (dict_pop p k dflt).2 {[ k := (dict_pop p k dflt).1 ]} =
  <[k := default dflt (p !! k)]> p.
Proof.
  unfold dict_update, dict_pop. simpl.
  rewrite <- insert_union_singleton_l. apply insert_delete_eq.
Qed.

Lemma update_nothing (p : dict) : dict_update p ∅ = p.
Proof. unfold dict_update. apply (left_id ∅ (∪)). Qed.

Lemma resource_parent_ind (P : resource → Prop) :
  (∀ i c v, P (Resource i c v None)) →
  (∀ i c v p, P p → P (Resource i c v (Some p))) →
  ∀ r, P r.
Proof.
  intros Hroot Hchild. fix IH 1. intros [i c v [p|]].
  - apply Hchild, IH.
  - apply Hroot.
Qed.

Section Frame.
Context {Store : Type}.

Lemma reads_only_refl (w : world Store) : reads_only w w.
Proof.
  repeat split. exists []. split; [by rewrite app_nil_r | constructor].
Qed.

Lemma reads_only_trans (w1 w2 w3 : world Store) :
  reads_only w1 w2 → reads_only w2 w3 → reads_only w1 w3.
Proof.
  intros (Hp & Hs & l & Hl & Hf) (Hp' & Hs' & l' & Hl' & Hf').
  split; [congruence | split; [congruence |]].
  exists (l ++ l'). split.
  - rewrite Hl', Hl. by rewrite app_assoc.
  - by apply Forall_app.
Qed.

Lemma reader_ret {A} (a : A) : reader (ret (Store := Store) a).
Proof. intros w. apply reads_only_refl. Qed.

Lemma reader_raise {A} e : reader (raise (Store := Store) (A := A) e).
Proof. intros w. apply reads_only_refl. Qed.

Lemma reader_lift {A} (r : result A) : reader (lift (Store := Store) r).
Proof. intros w. apply reads_only_refl. Qed.

Lemma reader_bind {A C} (m : M Store A) (k : A → M Store C) :
  reader m → (∀ a, reader (k a)) → reader (bind m k).
Proof.
  intros Hm Hk w. unfold bind. specialize (Hm w).
  destruct (m w) as [[a|e] w']; simpl in *; [|done].
  eapply reads_only_trans; [exact Hm | apply Hk].
Qed.

Lemma reader_read {A} (c : call) (f : Store → result A) :
  is_mutation c = false → reader (read c f).
Proof.
  intros Hc w. repeat split. exists [c]. split; [done|].
  by constructor.
Qed.
End Frame.

Create HintDb reader.
#[global] Hint Resolve reader_ret reader_raise reader_lift reader_read : reader.

Section Resolution.
Context {Store : Type} {B : Backend Store}.

#[local] Abbreviation M := (M Store).

Lemma lookup_item_reader c kw objects :
  reader (lookup_item (Store := Store) c kw objects).
Proof.
  destruct objects; simpl;
    repeat (apply reader_bind; [auto with reader|]; intros ?);
    auto with reader.
Qed.

Lemma lookup_item_es_reader c i item_id o :
  reader (lookup_item_es (Store := Store) c i item_id o).
Proof.
  apply reader_bind.
  - destruct o; [case_bool_decide|]; auto with reader.
  - intros _. apply reader_bind; [auto with reader|]. intros kw.
    apply reader_bind; [auto with reader|]. intros [|d l];
      auto with reader.
Qed.

Lemma get_item_at_reader r : ∀ c rq kwargs,
  reader (get_item_at (Store := Store) r c rq kwargs).
Proof.
  induction r as [i coll v|i coll v p IH] using resource_parent_ind;
    intros c rq kwargs; simpl.
  - apply reader_bind; [auto with reader|]. intros kw.
    apply reader_bind; [auto with reader|]. intros o.
    apply lookup_item_reader.
  - apply reader_bind; [auto with reader|]. intros kw.
    apply reader_bind; [|intros o; apply lookup_item_reader].
    destruct (res_view p); [|auto with reader].
    apply reader_bind; [apply IH|]. intros obj.
    destruct (isinstance _ _); auto with reader.
Qed.

Lemma get_item_es_at_reader r : ∀ c rq kwargs,
  reader (get_item_es_at (Store := Store) r c rq kwargs).
Proof.
  induction r as [i coll v|i coll v p IH] using resource_parent_ind;
    intros c rq kwargs; simpl.
  - apply reader_bind; [auto with reader|]. intros o.
    apply lookup_item_es_reader.
  - apply reader_bind; [|intros o; apply lookup_item_es_reader].
    destruct (res_view p); [|auto with reader].
    apply reader_bind.
    + destruct (find_method _ _); [apply IH | auto with reader].
    + intros obj. destruct (getattr_default obj coll VNone);
        repeat (apply reader_bind; [auto with reader|]; intros ?);
        auto with reader.
Qed.

(** [get_item] is the source's three statements. *)
Lemma get_item_unfold (self : view) (kwargs : dict) :
  get_item self kwargs =
  (let* kw := lift (resolve_kw kwargs) in
   let* objects := _parent_queryset self in
   lookup_item (cls self) kw objects).
Proof.
  destruct self as [c [i coll v [p|]] rq]; unfold get_item; simpl;
    unfold _parent_queryset, parent_view; simpl;
    [destruct (res_view p)|]; reflexivity.
Qed.

Lemma get_item_es_unfold (self : view) (kwargs : dict) :
  get_item_es self kwargs =
  (let* objects_ids := _parent_queryset_es self in
   lookup_item_es (cls self) (id_name (_resource self))
     (py_str (dict_get kwargs (id_name (_resource self)))) objects_ids).
Proof.
  destruct self as [c [i coll v [p|]] rq]; unfold get_item_es; simpl;
    unfold _parent_queryset_es, parent_view; simpl;
    [destruct (res_view p)|]; reflexivity.
Qed.

Lemma get_item_reader self kwargs :
  reader (get_item (Store := Store) self kwargs).
Proof. apply get_item_at_reader. Qed.

Lemma _parent_queryset_reader self :
  reader (_parent_queryset (Store := Store) self).
Proof.
  unfold _parent_queryset. destruct (parent_view self); [|auto with reader].
  apply reader_bind; [apply get_item_reader|]. intros obj.
  destruct (isinstance _ _); auto with reader.
Qed.
End Resolution.

(** ** The resolver and the reads *)

Section Reads.
Context {Store : Type} {B : Backend Store}.

Lemma parent_view_root (self : view) :
  hasattr_view (res_parent (_resource self)) = false →
  parent_view self = None.
Proof.
  unfold hasattr_view, parent_view.
  destruct (res_parent (_resource self)) as [p|]; [|done].
  destruct (res_view p); [|done].
  intros H. apply bool_decide_eq_false in H. destruct H. eauto.
Qed.

Lemma world_eta (w : world Store) :
  {| _params := _params w; store := store w; calls := calls w |} = w.
Proof. by destruct w. Qed.

(** [get_collection] once the resolver has answered. *)
Lemma get_collection_after (self : view) (kwargs : dict)
    (w w1 : world Store) (objects : value) :
  _parent_queryset self
    {| _params := dict_update (_params w) kwargs; store := store w;
       calls := calls w |} = (Ok objects, w1) →
  get_collection self kwargs w =
  match objects with
  | VNone =>
      read (CGetCollection (_model_class (cls self)) (_params w1))
           (model_get_collection (_model_class (cls self)) (_params w1)) w1
  | _ =>
      read (CFilterObjects (_model_class (cls self)) objects (_params w1))
           (model_filter_objects (_model_class (cls self)) objects
              (_params w1)) w1
  end.
Proof.
  intros H. unfold get_collection, bind, get_params, set_params. simpl.
  rewrite H. by destruct objects.
Qed.

Lemma index_after (self : view) (kwargs : dict)
    (w w1 : world Store) (objects : value) :
  _parent_queryset self w = (Ok objects, w1) →
  index self kwargs w =
  match objects with
  | VNone =>
      read (CGetCollection (_model_class (cls self)) (_params w1))
           (model_get_collection (_model_class (cls self)) (_params w1)) w1
  | _ =>
      read (CFilterObjects (_model_class (cls self)) objects (_params w1))
           (model_filter_objects (_model_class (cls self)) objects
              (_params w1)) w1
  end.
Proof.
  intros H. unfold index. apply get_collection_after.
  by rewrite update_nothing, world_eta.
Qed.

(** C6: a resource directly under the root (its parent carries no view)
    is never restricted, whatever the request: the resolver answers
    [None] on both paths without touching the backend, and
    [get_collection] reads the whole collection with the request's own
    filters (the view's [_params] updated with the keyword arguments). *)
Theorem root_child_is_unrestricted (self : view) (kwargs : dict)
    (w : world Store) :
  hasattr_view (res_parent (_resource self)) = false →
  _parent_queryset self w = (Ok VNone, w) ∧
  _parent_queryset_es self w = (Ok None, w) ∧
  get_collection self kwargs w =
    (model_get_collection (_model_class (cls self))
       (dict_update (_params w) kwargs) (store w),
     {| _params := dict_update (_params w) kwargs; store := store w;
        calls := calls w ++
          [CGetCollection (_model_class (cls self))
             (dict_update (_params w) kwargs)] |}).
Proof.
  intros Hroot. apply parent_view_root in Hroot.
  assert (Hq : ∀ w0 : world Store, _parent_queryset self w0 = (Ok VNone, w0))
    by (intros w0; unfold _parent_queryset; by rewrite Hroot).
  split; [apply Hq|]. split.
  - unfold _parent_queryset_es. by rewrite Hroot.
  - by rewrite (get_collection_after _ _ _ _ _ (Hq _)).
Qed.

(** C7: when the parent object is found but carries no attribute named
    by the child's [collection_name], the resolver answers [None] and
    raises nothing: on the store path [index] reads the collection with
    the view's [_params] only, on the index path the query is sent with
    [_params] as the request left it. *)
Theorem absent_relation_is_unrestricted (self pv : view) (attrs : dict)
    (kwargs : dict) (w w1 : world Store) :
  parent_view self = Some pv →
  attrs !! collection_name (_resource self) = None →
  (get_item pv (matchdict (req pv)) w = (Ok (VObj attrs), w1) →
     _parent_queryset self w = (Ok VNone, w1) ∧
     index self kwargs w =
       (model_get_collection (_model_class (cls self)) (_params w1)
          (store w1),
        logged (CGetCollection (_model_class (cls self)) (_params w1)) w1))
  ∧
  (is_Some (find_method (base_view_cls (cls pv)) "get_item_es") →
   get_item_es pv (matchdict (req pv)) w = (Ok (VObj attrs), w1) →
     _parent_queryset_es self w = (Ok None, w1) ∧
     es_index self kwargs w = es_query self w1).
Proof.
  intros Hpv Habs. split.
  - intros Hitem.
    assert (Hq : _parent_queryset self w = (Ok VNone, w1)).
    { unfold _parent_queryset, bind. rewrite Hpv, Hitem. simpl.
      rewrite Habs. simpl. by destruct (isinstance _ _). }
    split; [done|]. by rewrite (index_after _ _ _ _ _ Hq).
  - intros [k Hk] Hitem.
    assert (Hq : _parent_queryset_es self w = (Ok None, w1)).
    { unfold _parent_queryset_es, bind. rewrite Hpv, Hk, Hitem. simpl.
      by rewrite Habs. }
    split; [done|].
    unfold es_index, get_collection_es, bind. by rewrite Hq.
Qed.
End Reads.

Section Index.
Context {Store : Type} {B : Backend Store}.

(** The query [get_item_es] sends for [item_id] under field [field]. *)
Lemma lookup_item_es_query (c : RESTView) (i field item_id : string)
    (o : option (list string)) (w : world Store) :
  (o = None ∨ ∃ ids, o = Some ids ∧ item_id ∈ ids) →
  after_first underscore i = Some field →
  lookup_item_es c i item_id o w =
  (rbind (es_get_collection (_model_class c)
            (<["__raise_on_empty" := VBool true]>
               (<["_limit" := VInt 1]> {[ field := VStr item_id ]}))
            (store w))
         (λ docs, match docs with
                  | doc :: _ => Ok doc
                  | [] => Err IndexError
                  end),
   logged (CESGetCollection (_model_class c)
             (<["__raise_on_empty" := VBool true]>
                (<["_limit" := VInt 1]> {[ field := VStr item_id ]}))) w).
Proof.
  intros Ho Hf. unfold lookup_item_es, bind.
  assert (Hchk : match o with
                 | Some ids =>
                     if bool_decide (item_id ∈ ids) then ret tt
                     else raise (JHTTPNotFound
                                   (not_found_msg (_model_class c) item_id))
                 | None => ret tt
                 end w = (Ok tt, w)).
  { destruct Ho as [->|(ids & -> & Hin)]; [done|].
    by rewrite bool_decide_eq_true_2. }
  rewrite Hchk, resolve_kw_singleton. unfold split1_second.
  rewrite Hf. simpl. unfold read.
  destruct (es_get_collection _ _ _) as [[|d l]|e]; reflexivity.
Qed.

(** C1: once the parent restriction is resolved, [get_item_es] with an id
    (in its [str] form) that the restriction excludes -- the restriction
    being empty or not -- raises [JHTTPNotFound] in the very state the
    resolver left, with no index query of its own; with no restriction,
    or with the id among the restriction, it sends one query for the id
    with [_limit = 1] and [__raise_on_empty = True] (the id parameter
    being named [<prefix>_<field>], as [resolve_kw] requires) and
    returns its first document. *)
Theorem get_item_es_checks_membership (self : view) (kwargs : dict)
    (w w1 : world Store) (restriction : option (list string)) :
  _parent_queryset_es self w = (Ok restriction, w1) →
  let item_id := py_str (dict_get kwargs (id_name (_resource self))) in
  (∀ ids, restriction = Some ids → item_id ∉ ids →
     get_item_es self kwargs w =
     (Err (JHTTPNotFound
             (not_found_msg (_model_class (cls self)) item_id)), w1))
  ∧
  (∀ field,
     (restriction = None ∨
      ∃ ids, restriction = Some ids ∧ item_id ∈ ids) →
     after_first underscore (id_name (_resource self)) = Some field →
     let q := <["__raise_on_empty" := VBool true]>
                (<["_limit" := VInt 1]> {[ field := VStr item_id ]}) in
     get_item_es self kwargs w =
     (rbind (es_get_collection (_model_class (cls self)) q (store w1))
            (λ docs, match docs with
                     | doc :: _ => Ok doc
                     | [] => Err IndexError
                     end),
      logged (CESGetCollection (_model_class (cls self)) q) w1)).
Proof.
  intros Hres item_id. split.
  - intros ids -> Hnotin. rewrite get_item_es_unfold. unfold bind at 1.
    rewrite Hres. unfold lookup_item_es, bind. fold item_id.
    by rewrite bool_decide_eq_false_2.
  - intros field Hr Hf q. rewrite get_item_es_unfold. unfold bind at 1.
    rewrite Hres. by apply lookup_item_es_query.
Qed.

(** C3 (as the code has it): when the parent's relation attribute is the
    empty list, the index resolver answers the empty id list and
    [get_collection_es] returns [[]] in the state the resolver left, with
    no query of its own; the store resolver answers the empty relation
    and [index] passes it to the store's [filter_objects], one backend
    call, whose result it returns. *)
Theorem empty_relation_reads (self pv : view) (attrs : dict)
    (kwargs : dict) (w w1 : world Store) :
  parent_view self = Some pv →
  attrs !! collection_name (_resource self) = Some (VList []) →
  (is_Some (find_method (base_view_cls (cls pv)) "get_item_es") →
   get_item_es pv (matchdict (req pv)) w = (Ok (VObj attrs), w1) →
     _parent_queryset_es self w = (Ok (Some []), w1) ∧
     get_collection_es self kwargs w = (Ok [], w1))
  ∧
  (isinstance (base_view_cls (cls self)) ItemSubresourceBaseView = false →
   get_item pv (matchdict (req pv)) w = (Ok (VObj attrs), w1) →
     _parent_queryset self w = (Ok (VList []), w1) ∧
     index self kwargs w =
       (model_filter_objects (_model_class (cls self)) (VList [])
          (_params w1) (store w1),
        logged (CFilterObjects (_model_class (cls self)) (VList [])
                  (_params w1)) w1)).
Proof.
  intros Hpv Hrel. split.
  - intros [k Hk] Hitem.
    assert (Hq : _parent_queryset_es self w = (Ok (Some []), w1)).
    { unfold _parent_queryset_es, bind. rewrite Hpv, Hk, Hitem. simpl.
      by rewrite Hrel. }
    split; [done|]. unfold get_collection_es, bind. by rewrite Hq.
  - intros Hsub Hitem.
    assert (Hq : _parent_queryset self w = (Ok (VList []), w1)).
    { unfold _parent_queryset, bind. rewrite Hpv, Hitem, Hsub. simpl.
      by rewrite Hrel. }
    split; [done|]. by rewrite (index_after _ _ _ _ _ Hq).
Qed.
End Index.

Section Query.
Context {Store : Type} {B : Backend Store}.

Lemma get_item_es_reader self kwargs :
  reader (get_item_es (Store := Store) self kwargs).
Proof. apply get_item_es_at_reader. Qed.

Lemma _parent_queryset_es_reader self :
  reader (_parent_queryset_es (Store := Store) self).
Proof.
  unfold _parent_queryset_es.
  destruct (parent_view self); [|auto with reader].
  apply reader_bind.
  - destruct (find_method _ _); [apply get_item_es_reader|].
    auto with reader.
  - intros obj. destruct (getattr_default obj _ VNone);
      repeat (apply reader_bind; [auto with reader|]; intros ?);
      auto with reader.
Qed.

Lemma es_query_trace (self : view) (w : world Store) :
  ∃ l : list call,
    calls (es_query self w).2 = calls w ++ l ∧
    Forall (sent_by (_model_class (cls self)) (_params w)) l ∧
    (well_formed_query (_params w) →
       length l = 1 ∧ _params (es_query self w).2 !! "q" = None).
Proof.
  unfold es_query, _get_raw_terms, es_send, well_formed_query.
  unfold bind, get_params, set_params, lift, ret, read, logged,
    with_keyword. simpl.
  destruct (_params w !! "q") as [v|] eqn:Hq; simpl.
  - destruct v as [| | |t| |]; simpl;
      try (exists []; rewrite app_nil_r; split; [done|];
           split; [constructor|]; by intros [[t Ht] _]).
    rewrite lookup_delete_ne by done.
    destruct (_params w !! "_raw_terms") eqn:Hrt; simpl.
    + exists []. rewrite app_nil_r. split; [done|].
      split; [constructor|]. by intros [_ ?].
    + eexists [_]. split; [done|]. split.
      * constructor; [|constructor]. eexists _, t.
        split; [done|]. rewrite lookup_insert_ne by done.
        rewrite lookup_delete_eq, lookup_insert_eq, Hq.
        repeat split; try done. intros k Hk1 Hk2.
        rewrite lookup_insert_ne by done. by rewrite lookup_delete_ne.
      * intros _. split; [done|]. apply lookup_delete_eq.
  - destruct (_params w !! "_raw_terms") eqn:Hrt; simpl.
    + exists []. rewrite app_nil_r. split; [done|].
      split; [constructor|]. by intros [_ ?].
    + eexists [_]. split; [done|]. split.
      * constructor; [|constructor]. eexists _, "".
        split; [done|]. rewrite lookup_insert_ne by done.
        rewrite lookup_insert_eq, Hq. repeat split; try done.
        intros k Hk1 Hk2. by rewrite lookup_insert_ne.
      * intros _. by split.
Qed.
End Query.

Section Collections.
Context {Store : Type} {B : Backend Store}.

Lemma get_collection_es_after (self : view) (kwargs : dict)
    (w w1 : world Store) (restriction : option (list string)) :
  _parent_queryset_es self w = (Ok restriction, w1) →
  restriction ≠ Some [] →
  _params w1 = _params w ∧
  get_collection_es self kwargs w =
  es_query self {| _params := restricted_params restriction (_params w);
                   store := store w1; calls := calls w1 |}.
Proof.
  intros Hres Hne.
  pose proof (_parent_queryset_es_reader self w) as (Hp & _).
  rewrite Hres in Hp. simpl in Hp. split; [done|].
  unfold get_collection_es, bind at 1. rewrite Hres.
  destruct restriction as [[|i ids]|]; [done| |]; simpl.
  - unfold bind, get_params, set_params. simpl. by rewrite Hp.
  - by rewrite <- Hp, world_eta.
Qed.

Lemma well_formed_query_restricted restriction p :
  well_formed_query p → well_formed_query (restricted_params restriction p).
Proof.
  unfold well_formed_query. destruct restriction as [ids|]; [|done].
  simpl. by rewrite !lookup_insert_ne.
Qed.

(** C8: when the parent restriction is a non-empty id list, every query
    [get_collection_es] sends carries exactly that list under ['id'],
    whatever the request's filters hold under that key; and a query is
    sent whenever the request's filters are well formed (a string under
    ['q'] if anything, nothing under ['_raw_terms']). *)
Theorem parent_ids_replace_id_filter (self : view) (kwargs : dict)
    (w w1 : world Store) (ids : list string) :
  _parent_queryset_es self w = (Ok (Some ids), w1) →
  ids ≠ [] →
  ∃ l : list call,
    calls (get_collection_es self kwargs w).2 = calls w1 ++ l ∧
    Forall (λ c, ∃ kw : dict,
              c = CESGetCollection (_model_class (cls self)) kw ∧
              kw !! "id" = Some (VList (VStr <$> ids))) l ∧
    (well_formed_query (_params w) → length l = 1).
Proof.
  intros Hres Hne.
  destruct (get_collection_es_after self kwargs w w1 (Some ids) Hres)
    as [Hp ->]; [congruence|].
  destruct (es_query_trace self
              {| _params := restricted_params (Some ids) (_params w);
                 store := store w1; calls := calls w1 |})
    as (l & Hl & Hsent & Hwf).
  exists l. split; [exact Hl|]. split.
  - eapply Forall_impl; [exact Hsent|].
    intros c (kw & t & -> & _ & _ & _ & Hrest). exists kw.
    split; [done|]. rewrite Hrest by done. apply lookup_insert_eq.
  - intros H. by apply Hwf, well_formed_query_restricted.
Qed.

(** C10: every query [get_collection_es] sends has lost the reserved key
    ['q'] and carries as [_raw_terms] the string the request supplied
    under it, or the empty string when the request supplied none; for
    well-formed filters one query is sent and ['q'] is gone from the
    view's [_params] afterwards. *)
Theorem raw_terms_reach_index (self : view) (kwargs : dict)
    (w w1 : world Store) (restriction : option (list string)) :
  _parent_queryset_es self w = (Ok restriction, w1) →
  restriction ≠ Some [] →
  ∃ l : list call,
    calls (get_collection_es self kwargs w).2 = calls w1 ++ l ∧
    Forall (λ c, ∃ (kw : dict) (t : string),
              c = CESGetCollection (_model_class (cls self)) kw ∧
              kw !! "q" = None ∧
              kw !! "_raw_terms" = Some (VStr t) ∧
              match _params w !! "q" with
              | None => t = ""
              | Some v => v = VStr t
              end) l ∧
    (well_formed_query (_params w) →
       length l = 1 ∧
       _params (get_collection_es self kwargs w).2 !! "q" = None).
Proof.
  intros Hres Hne.
  destruct (get_collection_es_after self kwargs w w1 restriction Hres Hne)
    as [Hp ->].
  destruct (es_query_trace self
              {| _params := restricted_params restriction (_params w);
                 store := store w1; calls := calls w1 |})
    as (l & Hl & Hsent & Hwf).
  exists l. split; [exact Hl|]. split.
  - eapply Forall_impl; [exact Hsent|].
    intros c (kw & t & -> & Hq & Ht & Hterms & _). exists kw, t.
    repeat split; try done. simpl in Hterms.
    destruct restriction as [ids|]; [|done]. simpl in Hterms.
    by rewrite lookup_insert_ne in Hterms.
  - intros H. by apply Hwf, well_formed_query_restricted.
Qed.
End Collections.

(** ** Bulk operations *)

Section Bulk.
Context {Store : Type} {B : Backend Store}.

Lemma reader_get_params : reader (get_params (Store := Store)).
Proof. intros w. apply reads_only_refl. Qed.

Lemma get_collection_all (self : view) (w : world Store) :
  get_collection self ∅ w =
  (let* objects := _parent_queryset self in
   let* p := get_params in
   match objects with
   | VNone =>
       read (CGetCollection (_model_class (cls self)) p)
            (model_get_collection (_model_class (cls self)) p)
   | _ =>
       read (CFilterObjects (_model_class (cls self)) objects p)
            (model_filter_objects (_model_class (cls self)) objects p)
   end) w.
Proof.
  unfold get_collection, bind at 1 2, get_params at 1, set_params. simpl.
  by rewrite update_nothing, world_eta.
Qed.

Lemma get_collection_all_reads (self : view) (w : world Store) :
  reads_only w (get_collection self ∅ w).2.
Proof.
  rewrite get_collection_all. revert w. apply reader_bind.
  - apply _parent_queryset_reader.
  - intros objects. apply reader_bind; [apply reader_get_params|].
    intros p. destruct objects; auto with reader.
Qed.

(** C5: [delete_many] resolves the collection first.  If the request
    still needs confirmation it returns the resolved objects and the
    backend has only been read: the store is the one it started from
    and no mutation is in the log.  Otherwise it issues one
    [_delete_many] on exactly the resolved objects, and on success
    reports their number as counted before the removal. *)
Theorem delete_many_two_phases (self : view) (kwargs : dict)
    (w w1 : world Store) (objects : list value) :
  get_collection self ∅ w = (Ok objects, w1) →
  reads_only w w1 ∧
  (needs_confirmation (_params w) = true →
     delete_many self kwargs w = (Ok (Objects objects), w1)) ∧
  (needs_confirmation (_params w) = false →
     delete_many self kwargs w =
     (rbind (model_delete_many (_model_class (cls self)) objects
               (store w)).1
            (λ _, Ok (JHTTPOk (count_msg "Deleted" (count objects)
                                 (_model_class (cls self))))),
      {| _params := _params w;
         store := (model_delete_many (_model_class (cls self)) objects
                     (store w)).2;
         calls := calls w1 ++
                    [CDeleteMany (_model_class (cls self)) objects] |})).
Proof.
  intros Hcoll.
  pose proof (get_collection_all_reads self w) as Hread.
  rewrite Hcoll in Hread. simpl in Hread.
  destruct Hread as (Hp & Hs & Hl). split; [by repeat split|].
  split; intros Hconf; unfold delete_many, bind at 1; rewrite Hcoll;
    unfold bind at 1, get_params; rewrite Hp, Hconf; [done|].
  unfold bind, write, ret. simpl. rewrite Hs, Hp.
  by destruct (model_delete_many _ _ _).1.
Qed.

(** What [update_many] hands to [_update_many]: the view's [_params] as
    [get_collection] left them, which bind ['_limit'] again. *)
Lemma update_many_payload (self : view) (kwargs : dict) (w : world Store) :
  ∃ l : list call,
    calls (update_many self kwargs w).2 = calls w ++ l ∧
    Forall (λ c, match c with
                 | CUpdateMany _ _ p =>
                     p = <["_limit" := dict_get (_params w) "_limit"]>
                           (_params w)
                 | _ => True
                 end) l.
Proof.
  unfold update_many, bind at 1 2, get_params at 1, set_params at 1.
  simpl. unfold bind at 1, get_collection.
  unfold bind at 1 2, get_params at 1, set_params. simpl.
  pose proof (update_after_pop (_params w) "_limit" VNone) as Hupd.
  unfold dict_pop in Hupd. simpl in Hupd. rewrite Hupd. clear Hupd.
  fold (dict_get (_params w) "_limit").
  set (w0 := {| _params := _; store := store w; calls := calls w |}).
  pose proof (_parent_queryset_reader self w0) as (Hp & Hs & l & Hl & Hf).
  unfold bind at 1.
  assert (Hreads : Forall (λ c, match c with
                 | CUpdateMany _ _ p =>
                     p = <["_limit" := dict_get (_params w) "_limit"]>
                           (_params w)
                 | _ => True
                 end) l).
  { eapply Forall_impl; [exact Hf|]. by intros []. }
  destruct (_parent_queryset self w0) as [[objects|e] w1]; simpl in *.
  - unfold bind at 1, get_params at 1.
    assert (Hrun : ∀ (c : call) (f : Store → result (list value)),
      is_mutation c = false →
      ∃ l0 : list call,
        calls ((let* objects0 := read c f in
               let* p := get_params in
               let* _ := write
                 (CUpdateMany (_model_class (cls self)) objects0 p)
                 (model_update_many (_model_class (cls self)) objects0 p) in
               ret (JHTTPOk (count_msg "Updated" (count objects0)
                               (_model_class (cls self))))) w1).2
        = calls w ++ l0 ∧
        Forall (λ c, match c with
                 | CUpdateMany _ _ p =>
                     p = <["_limit" := dict_get (_params w) "_limit"]>
                           (_params w)
                 | _ => True
                 end) l0).
    { intros c f Hc. unfold bind at 1, read.
      destruct (f (store w1)) as [objs|e]; simpl.
      - unfold bind, get_params, write, ret, logged. simpl.
        exists (l ++ [c; CUpdateMany (_model_class (cls self)) objs
                            (_params w1)]).
        split.
        + destruct (model_update_many _ _ _ _).1; simpl;
            rewrite Hl, <- !app_assoc; done.
        + apply Forall_app. split; [done|].
          constructor; [by destruct c|]. constructor; [|constructor].
          by rewrite Hp.
      - exists (l ++ [c]). split; [by rewrite Hl, <- app_assoc|].
        apply Forall_app. split; [done|].
        constructor; [by destruct c|constructor]. }
    destruct objects;
      [exact (Hrun (CGetCollection _ _) (model_get_collection _ _) eq_refl)
      |exact (Hrun (CFilterObjects _ _ _) (model_filter_objects _ _ _)
                eq_refl)..].
  - exists l. by split.
Qed.
End Bulk.

(** ** Singular resources *)

Section Singular.
Context {Store : Type} {B : Backend Store}.

(** C9: [delete] on a singular resource fetches the parent object and
    updates it with exactly [{attr: None}], nothing else; and when the
    store then serves that parent with the attribute set to [None], a
    following [show] returns [None] and raises nothing. *)
Theorem singular_delete_then_show (self : view) (kwargs : dict)
    (w w1 : world Store) (attrs : dict) :
  get_item self kwargs w = (Ok (VObj attrs), w1) →
  let model := _model_class (cls self) in
  let cleared : dict := {[ singular_attr self := VNone ]} in
  let upd := obj_update model (VObj attrs) cleared (store w1) in
  let w2 := {| _params := _params w1; store := upd.2;
               calls := calls w1 ++
                          [CObjUpdate model (VObj attrs) cleared] |} in
  singular_delete self kwargs w =
    (rbind upd.1 (λ _, Ok (JHTTPOk "Deleted")), w2) ∧
  (∀ w3,
     get_item self kwargs w2 =
       (Ok (VObj (<[singular_attr self := VNone]> attrs)), w3) →
     singular_show self kwargs w2 = (Ok VNone, w3)).
Proof.
  intros Hitem model cleared upd w2. split.
  - unfold singular_delete, bind at 1. rewrite Hitem.
    unfold bind, write, ret. simpl. fold model cleared upd.
    by destruct upd.1.
  - intros w3 Hagain. unfold singular_show, bind. rewrite Hagain.
    unfold lift. simpl. by rewrite lookup_insert_eq.
Qed.
End Singular.

(** ** Generated views *)

Section Generated.
Variable hook : string → result (dict → result value).

Lemma missing_attr_is_property (attrs : list string) (op : string) :
  op ∈ valid_attrs → op ∉ attrs → op ∈ missing_attrs attrs.
Proof.
  intros Hin Hnot. unfold missing_attrs.
  apply elem_of_difference. split.
  - by apply elem_of_list_to_set.
  - by rewrite elem_of_list_to_set.
Qed.

(** Looking up a name bound to [property(_attr_error)] never reaches a
    method of this file: the answer is the base view's fallback. *)
Lemma property_defers_to_fallback (V : RESTView) (op : string) :
  op ∈ attr_errors V →
  view_getattr hook V op = rbind (hook op) (λ f, Ok (Inherited f)).
Proof. intros H. unfold view_getattr. by rewrite decide_True. Qed.

(** C4: for a canonical operation left out of [attrs], generation
    succeeds and binds the name in the generated class; calling it on a
    view raises [JHTTPMethodNotAllowed] -- the property's
    [AttributeError] sends the lookup to the base view's fallback, which
    for this name answers with an action that rejects every call -- and
    no method of the view classes runs. *)
Theorem disallowed_operation_rejects (model : string) (attrs : list string)
    (es_based attr_view singular : bool) (op : string)
    (action : dict → result value) :
  op ∈ valid_attrs →
  op ∉ attrs →
  hook op = Ok action →
  (∀ kwargs, action kwargs = Err JHTTPMethodNotAllowed) →
  ∃ V : RESTView,
    generate_rest_view model (Some attrs) es_based attr_view singular
      = Ok V ∧
    op ∈ class_namespace V ∧
    ∀ kwargs, invoke hook V op kwargs = Raises JHTTPMethodNotAllowed.
Proof.
  intros Hin Hnot Hhook Haction. eexists. split; [reflexivity|].
  pose proof (missing_attr_is_property attrs op Hin Hnot) as Hmiss.
  split.
  - unfold class_namespace. simpl. apply elem_of_union. by right.
  - intros kwargs. unfold invoke.
    rewrite property_defers_to_fallback by done.
    rewrite Hhook. simpl. by rewrite Haction.
Qed.
End Generated.

(** ** The theorems at work on a concrete library *)

Section Concrete.
Import Toy.

#[local] Abbreviation es_books := (books_view ESCollectionView md).
#[local] Abbreviation db_books := (books_view CollectionView md).

Ltac holds := apply (bool_decide_unpack _); vm_compute; exact I.
Ltac runs := vm_compute; reflexivity.

Lemma get_item_es_checks_membership_witness :
  let w := world_of ∅ library in
  let w1 := (_parent_queryset_es es_books w).2 in
  get_item_es es_books {[ "book_id" := VInt 9 ]} w =
    (Err (JHTTPNotFound "Book(id=9) resource not found"), w1) ∧
  get_item_es es_books {[ "book_id" := VInt 7 ]} w =
    (Ok (book 7),
     logged (CESGetCollection "Book"
               (<["__raise_on_empty" := VBool true]>
                  (<["_limit" := VInt 1]> {[ "id" := VStr "7" ]}))) w1).
Proof.
  intros w w1.
  assert (Hres : _parent_queryset_es es_books w = (Ok (Some ["7"; "8"]), w1))
    by runs.
  split.
  - destruct (get_item_es_checks_membership es_books
                {[ "book_id" := VInt 9 ]} w w1 _ Hres) as [Hout _].
    apply (Hout ["7"; "8"] eq_refl). holds.
  - destruct (get_item_es_checks_membership es_books
                {[ "book_id" := VInt 7 ]} w w1 _ Hres) as [_ Hin].
    apply (Hin "id"); [|reflexivity].
    right. exists ["7"; "8"]. split; [reflexivity|]. holds.
Defined.

Lemma empty_relation_reads_witness :
  let w := world_of ∅ lonely in
  get_collection_es es_books ∅ w =
    (Ok [], (_parent_queryset_es es_books w).2) ∧
  index db_books ∅ w =
    (Ok [], logged (CFilterObjects "Book" (VList []) ∅)
              (_parent_queryset db_books w).2).
Proof.
  intros w. split.
  - set (w1 := (_parent_queryset_es es_books w).2).
    edestruct (empty_relation_reads es_books _
                 (<["id" := VInt 1]>
                    (<["books" := VList []]> {[ "profile" := VNone ]}))
                 ∅ w w1 eq_refl) as [Hes _]; [runs|].
    apply Hes; [by eexists | runs].
  - set (w1 := (_parent_queryset db_books w).2).
    edestruct (empty_relation_reads db_books _
                 (<["id" := VInt 1]>
                    (<["books" := VList []]> {[ "profile" := VNone ]}))
                 ∅ w w1 eq_refl) as [_ Hdb]; [runs|].
    apply Hdb; runs.
Defined.

(** C3, as stated, fails on the store path: with an author whose
    [books] relation is empty, the resolver answers the empty relation
    and [index] still calls the store's [filter_objects] with it. *)
Lemma store_read_queries_with_empty_relation :
  let w := world_of ∅ lonely in
  (_parent_queryset db_books w).1 = Ok (VList []) ∧
  calls (index db_books ∅ w).2 =
    calls (_parent_queryset db_books w).2
      ++ [CFilterObjects "Book" (VList []) ∅] ∧
  calls (index db_books ∅ w).2 ≠ calls (_parent_queryset db_books w).2.
Proof.
  intros w. split; [runs|]. split; [runs|].
  vm_compute. discriminate.
Qed.

Lemma disallowed_operation_rejects_witness :
  ∃ V : RESTView,
    generate_rest_view "Author" (Some ["index"; "show"]) true false false
      = Ok V ∧
    "delete_many" ∈ class_namespace V ∧
    ∀ kwargs, invoke hook V "delete_many" kwargs
              = Raises JHTTPMethodNotAllowed.
Proof.
  apply (disallowed_operation_rejects hook "Author" ["index"; "show"]
           true false false "delete_many" not_allowed_action).
  - holds.
  - holds.
  - reflexivity.
  - reflexivity.
Defined.

Lemma delete_many_two_phases_witness :
  let av := authors_view CollectionView in
  delete_many av ∅ (world_of ∅ library) =
    (Ok (Objects (rows "Author" library)),
     logged (CGetCollection "Author" ∅) (world_of ∅ library)) ∧
  delete_many av ∅ (world_of {[ "__confirmation" := VStr "" ]} library) =
    (Ok (JHTTPOk "Deleted 1 Author(s) objects"),
     {| _params := {[ "__confirmation" := VStr "" ]};
        store := <["Author" := []]> library;
        calls := [CGetCollection "Author"
                    {[ "__confirmation" := VStr "" ]};
                  CDeleteMany "Author" (rows "Author" library)] |}).
Proof.
  intros av. split.
  - destruct (delete_many_two_phases av ∅ (world_of ∅ library)
                (logged (CGetCollection "Author" ∅) (world_of ∅ library))
                (rows "Author" library)) as (_ & Hfirst & _); [runs|].
    apply Hfirst. reflexivity.
  - destruct (delete_many_two_phases av ∅
                (world_of {[ "__confirmation" := VStr "" ]} library)
                (logged (CGetCollection "Author"
                           {[ "__confirmation" := VStr "" ]})
                   (world_of {[ "__confirmation" := VStr "" ]} library))
                (rows "Author" library)) as (_ & _ & Hsecond); [runs|].
    rewrite Hsecond by reflexivity. runs.
Defined.

Lemma root_child_is_unrestricted_witness :
  let av := authors_view CollectionView in
  let w := world_of {[ "name" := VStr "x" ]} library in
  _parent_queryset av w = (Ok VNone, w) ∧
  get_collection av {[ "_limit" := VInt 20 ]} w =
    (Ok (rows "Author" library),
     {| _params := <["_limit" := VInt 20]> {[ "name" := VStr "x" ]};
        store := library;
        calls := [CGetCollection "Author"
                    (<["_limit" := VInt 20]> {[ "name" := VStr "x" ]})] |}).
Proof.
  intros av w.
  destruct (root_child_is_unrestricted av {[ "_limit" := VInt 20 ]} w
              eq_refl) as (Hq & _ & Hread).
  split; [exact Hq|]. rewrite Hread. runs.
Defined.

Lemma absent_relation_is_unrestricted_witness :
  let w := world_of ∅ bare in
  index db_books ∅ w =
    (Ok [book 7],
     logged (CGetCollection "Book" ∅) (_parent_queryset db_books w).2) ∧
  es_index es_books ∅ w =
    es_query es_books (_parent_queryset_es es_books w).2.
Proof.
  intros w. split.
  - set (w1 := (_parent_queryset db_books w).2).
    edestruct (absent_relation_is_unrestricted db_books _
                 {[ "id" := VInt 1 ]} ∅ w w1 eq_refl) as [Hdb _];
      [runs|].
    destruct Hdb as [_ Hdb]; [runs|]. rewrite Hdb. runs.
  - set (w1 := (_parent_queryset_es es_books w).2).
    edestruct (absent_relation_is_unrestricted es_books _
                 {[ "id" := VInt 1 ]} ∅ w w1 eq_refl) as [_ Hes];
      [runs|].
    destruct Hes as [_ Hes]; [by eexists | runs | exact Hes].
Defined.

Lemma parent_ids_replace_id_filter_witness :
  let w := world_of {[ "id" := VStr "99" ]} library in
  ∃ l : list call,
    calls (get_collection_es es_books ∅ w).2 =
      calls (_parent_queryset_es es_books w).2 ++ l ∧
    Forall (λ c, ∃ kw : dict,
              c = CESGetCollection "Book" kw ∧
              kw !! "id" = Some (VList [VStr "7"; VStr "8"])) l ∧
    length l = 1.
Proof.
  intros w.
  destruct (parent_ids_replace_id_filter es_books ∅ w
              (_parent_queryset_es es_books w).2 ["7"; "8"])
    as (l & Hl & Hid & Hone); [runs | done |].
  exists l. split; [exact Hl|]. split; [exact Hid|].
  apply Hone. split; [exact I | reflexivity].
Defined.

Lemma raw_terms_reach_index_witness :
  let w := world_of (<["q" := VStr "tolkien"]> {[ "lang" := VStr "en" ]})
             library in
  ∃ l : list call,
    calls (get_collection_es es_books ∅ w).2 =
      calls (_parent_queryset_es es_books w).2 ++ l ∧
    Forall (λ c, ∃ kw : dict,
              c = CESGetCollection "Book" kw ∧
              kw !! "q" = None ∧
              kw !! "_raw_terms" = Some (VStr "tolkien")) l ∧
    length l = 1 ∧
    _params (get_collection_es es_books ∅ w).2 !! "q" = None.
Proof.
  intros w.
  destruct (raw_terms_reach_index es_books ∅ w
              (_parent_queryset_es es_books w).2 (Some ["7"; "8"]))
    as (l & Hl & Hq & Hone); [runs | done |].
  exists l. split; [exact Hl|]. split.
  - eapply Forall_impl; [exact Hq|].
    intros c (kw & t & -> & Hnoq & Ht & Hterm). exists kw.
    split; [reflexivity|]. split; [exact Hnoq|].
    vm_compute in Hterm. injection Hterm as <-. exact Ht.
  - apply Hone. split; [by exists "tolkien" | reflexivity].
Defined.

Lemma singular_delete_then_show_witness :
  let w := world_of ∅ library in
  let w2 := (singular_delete profile_view md w).2 in
  (singular_delete profile_view md w).1 = Ok (JHTTPOk "Deleted") ∧
  (singular_show profile_view md w2).1 = Ok VNone.
Proof.
  intros w w2.
  destruct (singular_delete_then_show profile_view md w
              (get_item profile_view md w).2
              (<["id" := VInt 1]>
                 (<["books" := VList [VInt 7; VInt 8]]>
                    {[ "profile" := VObj {[ "bio" := VStr "b" ]} ]})))
    as [Hdel Hshow]; [runs|].
  split.
  - rewrite Hdel. reflexivity.
  - unfold w2. rewrite Hdel. cbn [snd].
    match goal with
    | |- (singular_show _ _ ?w').1 = _ =>
        rewrite (Hshow (get_item profile_view md w').2)
    end; [reflexivity | runs].
Defined.

(** C2: the code at a request that carries a limit.  [_update_many]
    receives the limit again among the update parameters; and a request
    without any limit hands it ['_limit'] bound to [None]. *)
Theorem update_many_payload_has_limit :
  let av := authors_view CollectionView in
  calls (update_many av ∅
           (world_of (<["_limit" := VInt 5]> {[ "name" := VStr "x" ]})
              library)).2 =
    [CGetCollection "Author"
       (<["_limit" := VInt 5]> {[ "name" := VStr "x" ]});
     CUpdateMany "Author" (rows "Author" library)
       (<["_limit" := VInt 5]> {[ "name" := VStr "x" ]})] ∧
  calls (update_many av ∅ (world_of {[ "name" := VStr "x" ]} library)).2 =
    [CGetCollection "Author"
       (<["_limit" := VNone]> {[ "name" := VStr "x" ]});
     CUpdateMany "Author" (rows "Author" library)
       (<["_limit" := VNone]> {[ "name" := VStr "x" ]})].
Proof. split; runs. Qed.
End Concrete.


(** ** More on [resolve_kw] *)

Section ResolveKw.

Lemma after_first_none (c : Ascii.ascii) (s : string) :
  after_first c s = None ↔ c ∉ String.list_ascii_of_string s.
Proof.
  induction s as [|a s IH]; simpl.
  - split; [intros _; apply not_elem_of_nil | done].
  - destruct (Ascii.eqb a c) eqn:E.
    + apply Ascii.eqb_eq in E as ->. split; [done|].
      intros H. destruct H. apply elem_of_cons. by left.
    + apply Ascii.eqb_neq in E. rewrite IH, not_elem_of_cons.
      split; [intros H; split; [congruence | done] | by intros [_ H]].
Qed.

Lemma after_first_app (c : Ascii.ascii) (pre suf : string) :
  c ∉ String.list_ascii_of_string pre →
  after_first c (pre +:+ String c suf) = Some suf.
Proof.
  induction pre as [|a pre IH]; simpl.
  - intros _. by rewrite Ascii.eqb_refl.
  - rewrite not_elem_of_cons. intros [Hne Hpre].
    destruct (Ascii.eqb a c) eqn:E.
    + apply Ascii.eqb_eq in E. congruence.
    + by apply IH.
Qed.

Lemma resolve_items_err (l : list (string * value)) (e : exn) :
  resolve_items l = Err e →
  e = IndexError ∧ ∃ k v, (k, v) ∈ l ∧ after_first underscore k = None.
Proof.
  induction l as [|[k v] l IH]; simpl; [done|].
  destruct (resolve_items l) as [d|e'] eqn:Hl; simpl.
  - unfold split1_second. destruct (after_first underscore k) eqn:Hk;
      simpl; [done|]. intros [= <-]. split; [done|].
    exists k, v. split; [(apply elem_of_cons; by left) | done].
  - intros [= <-]. destruct (IH eq_refl) as (-> & k' & v' & Hin & Hk').
    split; [done|]. exists k', v'. split; [(apply elem_of_cons; by right)|done].
Qed.

Lemma resolve_items_ok (l : list (string * value)) (d : dict) :
  resolve_items l = Ok d →
  (∀ k' v, d !! k' = Some v →
     ∃ k, (k, v) ∈ l ∧ after_first underscore k = Some k') ∧
  (∀ k v, (k, v) ∈ l →
     ∃ k', after_first underscore k = Some k' ∧ is_Some (d !! k')).
Proof.
  revert d. induction l as [|[k v] l IH]; simpl; intros d.
  - intros [= <-]. split; [intros k' v; by rewrite lookup_empty|].
    intros k v H. by apply elem_of_nil in H.
  - destruct (resolve_items l) as [d0|e] eqn:Hl; simpl; [|done].
    unfold split1_second. destruct (after_first underscore k) as [k0|] eqn:Hk;
      simpl; [|done]. intros [= <-].
    destruct (IH d0 eq_refl) as [Hsound Hcompl]. split.
    + intros k' v'. destruct (decide (k0 = k')) as [->|Hne].
      * rewrite lookup_insert_eq. intros [= <-]. exists k.
        split; [(apply elem_of_cons; by left) | done].
      * rewrite lookup_insert_ne by done. intros Hd.
        destruct (Hsound k' v' Hd) as (k1 & Hin & Hk1). exists k1.
        split; [(apply elem_of_cons; by right) | done].
    + intros k1 v1 Hin. apply elem_of_cons in Hin as [[= -> ->]|Hin].
      * exists k0. split; [done|]. rewrite lookup_insert_eq. by eexists.
      * destruct (Hcompl k1 v1 Hin) as (k' & Hk' & Hd). exists k'.
        split; [done|]. destruct (decide (k0 = k')) as [->|Hne].
        -- rewrite lookup_insert_eq. by eexists.
        -- by rewrite lookup_insert_ne.
Qed.

(** X1: [resolve_kw] raises exactly when some keyword has no underscore
    in its name, and then it raises [IndexError], nothing else. *)
Theorem resolve_kw_raises_iff (kwargs : dict) :
  (resolve_kw kwargs = Err IndexError ↔
   ∃ k, is_Some (kwargs !! k) ∧
        underscore ∉ String.list_ascii_of_string k) ∧
  (∀ e, resolve_kw kwargs = Err e → e = IndexError).
Proof.
  change (resolve_kw kwargs) with (resolve_items (map_to_list kwargs)).
  split; [split|].
  - intros H. apply resolve_items_err in H.
    destruct H as (_ & k & v & Hin & Hk).
    exists k. apply elem_of_map_to_list in Hin. split; [by eexists|].
    by apply after_first_none.
  - intros (k & [v Hv] & Hk). apply after_first_none in Hk.
    destruct (resolve_items (map_to_list kwargs)) as [d|e] eqn:Hr.
    + apply resolve_items_ok in Hr as [_ Hcompl].
      apply elem_of_map_to_list in Hv.
      destruct (Hcompl k v Hv) as (k' & Hk' & _). congruence.
    + apply resolve_items_err in Hr. by destruct Hr as [-> _].
  - intros e H. apply resolve_items_err in H. by destruct H.
Qed.

(** X2: when [resolve_kw] succeeds, every binding of its result is the
    value of some keyword whose name, cut after its first underscore, is
    the new key; and every keyword is represented under its cut name. *)
Theorem resolve_kw_bindings (kwargs d : dict) :
  resolve_kw kwargs = Ok d →
  (∀ k' v, d !! k' = Some v →
     ∃ k, kwargs !! k = Some v ∧ after_first underscore k = Some k') ∧
  (∀ k v, kwargs !! k = Some v →
     ∃ k', after_first underscore k = Some k' ∧ is_Some (d !! k')).
Proof.
  change (resolve_kw kwargs) with (resolve_items (map_to_list kwargs)).
  intros H. apply resolve_items_ok in H as [Hsound Hcompl]. split.
  - intros k' v Hd. destruct (Hsound k' v Hd) as (k & Hin & Hk).
    exists k. by apply elem_of_map_to_list in Hin.
  - intros k v Hkw. apply (Hcompl k v). by apply elem_of_map_to_list.
Qed.

(** X3: a single keyword [<prefix>_<rest>], the prefix free of
    underscores, resolves to [<rest>] with its value: only the first
    underscore splits. *)
Theorem resolve_kw_cuts_at_first_underscore (pre rest : string) (v : value) :
  underscore ∉ String.list_ascii_of_string pre →
  resolve_kw {[ pre +:+ "_" +:+ rest := v ]} = Ok {[ rest := v ]}.
Proof.
  intros Hpre. rewrite resolve_kw_singleton. unfold split1_second.
  change ("_" +:+ rest) with (String underscore rest).
  by rewrite after_first_app.
Qed.
End ResolveKw.

Section ResolveKwConcrete.

Lemma resolve_kw_bindings_witness :
  ∃ k, (<["story_id" := VInt 1]> {[ "user_name" := VStr "x" ]} : dict)
         !! k = Some (VStr "x") ∧
       after_first underscore k = Some "name".
Proof.
  destruct (resolve_kw_bindings
              (<["story_id" := VInt 1]> {[ "user_name" := VStr "x" ]})
              (<["id" := VInt 1]> {[ "name" := VStr "x" ]}))
    as [Hsound _]; [vm_compute; reflexivity|].
  apply Hsound. vm_compute. reflexivity.
Defined.

Lemma resolve_kw_cuts_at_first_underscore_witness :
  resolve_kw {[ "story_id_x" := VInt 1 ]} = Ok {[ "id_x" := VInt 1 ]}.
Proof.
  apply (resolve_kw_cuts_at_first_underscore "story" "id_x" (VInt 1)).
  apply (bool_decide_unpack _). vm_compute. exact I.
Defined.
End ResolveKwConcrete.

(** ** More on item resolution *)

Section ItemResolution.
Context {Store : Type} {B : Backend Store}.

(** X4: looking an item up, on either path and at any depth of nesting,
    only reads: the view's [_params] and the store are left as they were
    and no mutation is among the calls issued. *)
Theorem item_lookups_only_read (self : view) (kwargs : dict)
    (w : world Store) :
  reads_only w (get_item self kwargs w).2 ∧
  reads_only w (get_item_es self kwargs w).2.
Proof. split; [apply get_item_reader | apply get_item_es_reader]. Qed.

(** X5: [get_item] resolves its keywords before anything else: when that
    fails, the error is raised with no backend call at all, not even the
    parent's lookup. *)
Theorem get_item_rejects_keywords_first (self : view) (kwargs : dict)
    (w : world Store) (e : exn) :
  resolve_kw kwargs = Err e →
  get_item self kwargs w = (Err e, w).
Proof.
  intros H. rewrite get_item_unfold. unfold bind, lift. by rewrite H.
Qed.

(** X6: an error raised while looking the parent up (a parent that is not
    found, say) is the error of the child request, raised in the state the
    parent lookup left: no lookup or query for the child follows, on
    [get_item] and [index] as on [get_item_es] and [get_collection_es]. *)
Theorem parent_failure_propagates (self pv : view) (kwargs : dict)
    (w w1 : world Store) (e : exn) :
  parent_view self = Some pv →
  (get_item pv (matchdict (req pv)) w = (Err e, w1) →
     (∀ kw, resolve_kw kwargs = Ok kw →
        get_item self kwargs w = (Err e, w1)) ∧
     index self kwargs w = (Err e, w1))
  ∧
  (is_Some (find_method (base_view_cls (cls pv)) "get_item_es") →
   get_item_es pv (matchdict (req pv)) w = (Err e, w1) →
     get_item_es self kwargs w = (Err e, w1) ∧
     get_collection_es self kwargs w = (Err e, w1)).
Proof.
  intros Hpv. split.
  - intros Hitem.
    assert (Hq : _parent_queryset self w = (Err e, w1)).
    { unfold _parent_queryset, bind. by rewrite Hpv, Hitem. }
    split.
    + intros kw Hkw. rewrite get_item_unfold. unfold bind, lift.
      by rewrite Hkw, Hq.
    + unfold index, get_collection, bind, get_params, set_params. simpl.
      by rewrite update_nothing, world_eta, Hq.
  - intros [k Hk] Hitem.
    assert (Hq : _parent_queryset_es self w = (Err e, w1)).
    { unfold _parent_queryset_es, bind. by rewrite Hpv, Hk, Hitem. }
    split.
    + rewrite get_item_es_unfold. unfold bind. by rewrite Hq.
    + unfold get_collection_es, bind. by rewrite Hq.
Qed.

(** X7: under a parent whose relation attribute is set, a collection
    view's [get_item] looks the item up within that relation with
    [filter_objects(objects, first=True, ...)] and the resolved keywords;
    [get_resource] is not called for it. *)
Theorem get_item_within_parent_relation (self pv : view)
    (kwargs kw : dict) (w w1 : world Store) (obj relation : value) :
  parent_view self = Some pv →
  isinstance (base_view_cls (cls self)) ItemSubresourceBaseView = false →
  resolve_kw kwargs = Ok kw →
  kw !! "first" = None →
  get_item pv (matchdict (req pv)) w = (Ok obj, w1) →
  getattr_default obj (collection_name (_resource self)) VNone = relation →
  relation ≠ VNone →
  get_item self kwargs w =
    (model_filter_first (_model_class (cls self)) relation kw (store w1),
     logged (CFilterFirst (_model_class (cls self)) relation kw) w1).
Proof.
  intros Hpv Hsub Hkw Hfirst Hitem Hrel Hne.
  rewrite get_item_unfold. unfold bind at 1, lift. rewrite Hkw.
  unfold bind at 1, _parent_queryset, bind. rewrite Hpv, Hitem, Hsub.
  simpl. rewrite Hrel. unfold lookup_item, bind, lift, with_keyword.
  rewrite Hfirst. by destruct relation.
Qed.

(** X8: a view below [ItemSubresourceBaseView] (attribute or singular)
    still looks its parent up, but never filters by the parent's
    relation: once the parent is found, the item is fetched with
    [get_resource] and the resolved keywords, whatever the parent
    holds. *)
Theorem subresource_item_ignores_relation (self pv : view)
    (kwargs kw : dict) (w w1 : world Store) (obj : value) :
  parent_view self = Some pv →
  isinstance (base_view_cls (cls self)) ItemSubresourceBaseView = true →
  resolve_kw kwargs = Ok kw →
  get_item pv (matchdict (req pv)) w = (Ok obj, w1) →
  get_item self kwargs w =
    (model_get_resource (_model_class (cls self)) kw (store w1),
     logged (CGetResource (_model_class (cls self)) kw) w1).
Proof.
  intros Hpv Hsub Hkw Hitem.
  rewrite get_item_unfold. unfold bind at 1, lift. rewrite Hkw.
  unfold bind at 1, _parent_queryset, bind. by rewrite Hpv, Hitem, Hsub.
Qed.

(** The log starts with [c] once [m] has run from [w]. *)
Lemma first_call_bind {A C} (m : M Store A) (k : A → M Store C)
    (w : world Store) (c : call) :
  (∃ rest, calls (m w).2 = calls w ++ c :: rest) →
  (∀ a, reader (k a)) →
  ∃ rest, calls (bind m k w).2 = calls w ++ c :: rest.
Proof.
  intros [rest Hm] Hk. unfold bind.
  destruct (m w) as [[a|e] w1]; simpl in *; [|by exists rest].
  destruct (Hk a w1) as (_ & _ & l & Hl & _).
  exists (rest ++ l). rewrite Hl, Hm. by rewrite <- app_assoc.
Qed.

(** X9: two levels up, the id is lost.  The request built for the parent
    keeps the parent's id only, so when the parent in turn resolves its
    own parent (here a top-level resource) it finds no id for it: the
    first lookup of a doubly nested [get_item] is [get_resource] on the
    grandparent's model with its id field bound to [None]. *)
Theorem grandparent_is_looked_up_by_none (self pv gv : view)
    (kwargs kw : dict) (pfield gfield : string) (w : world Store) :
  parent_view self = Some pv →
  parent_view pv = Some gv →
  hasattr_view (res_parent (_resource gv)) = false →
  id_name (_resource gv) ≠ id_name (_resource pv) →
  resolve_kw kwargs = Ok kw →
  after_first underscore (id_name (_resource pv)) = Some pfield →
  after_first underscore (id_name (_resource gv)) = Some gfield →
  ∃ rest,
    calls (get_item self kwargs w).2 =
    calls w ++ CGetResource (_model_class (cls gv)) {[ gfield := VNone ]}
            :: rest.
Proof.
  intros Hpv Hgv Hroot Hne Hkw Hpf Hgf.
  assert (Hmd : matchdict (req gv) = {[ id_name (_resource gv) := VNone ]}).
  { unfold parent_view in Hgv, Hpv.
    destruct (res_parent (_resource pv)) as [g|]; [|done].
    destruct (res_view g); [|done]. injection Hgv as <-. simpl.
    destruct (res_parent (_resource self)) as [p|]; [|done].
    destruct (res_view p); [|done]. injection Hpv as <-. simpl in *.
    unfold dict_get. by rewrite lookup_singleton_ne. }
  assert (Hg : ∀ w0 : world Store,
    get_item gv (matchdict (req gv)) w0 =
    read (CGetResource (_model_class (cls gv)) {[ gfield := VNone ]})
         (model_get_resource (_model_class (cls gv)) {[ gfield := VNone ]})
         w0).
  { intros w0. rewrite get_item_unfold, Hmd, resolve_kw_singleton.
    unfold split1_second. rewrite Hgf. simpl. unfold bind at 1, lift.
    unfold bind, _parent_queryset. by rewrite (parent_view_root _ Hroot). }
  assert (Hp : ∀ w0 : world Store, ∃ rest,
    calls (get_item pv (matchdict (req pv)) w0).2 =
    calls w0 ++ CGetResource (_model_class (cls gv)) {[ gfield := VNone ]}
             :: rest).
  { intros w0. rewrite get_item_unfold.
    assert (Hpmd : ∃ v, matchdict (req pv) = {[ id_name (_resource pv) := v ]}).
    { unfold parent_view in Hpv.
      destruct (res_parent (_resource self)) as [p|]; [|done].
      destruct (res_view p); [|done]. injection Hpv as <-. simpl.
      by eexists. }
    destruct Hpmd as [v ->]. rewrite resolve_kw_singleton.
    unfold split1_second. rewrite Hpf. simpl. unfold bind at 1, lift.
    apply first_call_bind; [|intros o; apply lookup_item_reader].
    unfold _parent_queryset. rewrite Hgv.
    apply first_call_bind.
    - rewrite Hg. by exists [].
    - intros o. destruct (isinstance _ _); auto with reader. }
  rewrite get_item_unfold. unfold bind at 1, lift. rewrite Hkw.
  apply first_call_bind; [|intros o; apply lookup_item_reader].
  unfold _parent_queryset. rewrite Hpv.
  apply first_call_bind; [apply Hp|].
  intros o. destruct (isinstance _ _); auto with reader.
Qed.

(** X10: an index-backed view under a parent whose view class has no
    [get_item_es] cannot resolve: item and collection reads raise
    [AttributeError] with no backend call. *)
Theorem index_read_needs_index_parent (self pv : view) (kwargs : dict)
    (w : world Store) :
  parent_view self = Some pv →
  find_method (base_view_cls (cls pv)) "get_item_es" = None →
  get_item_es self kwargs w = (Err AttributeError, w) ∧
  get_collection_es self kwargs w = (Err AttributeError, w).
Proof.
  intros Hpv Hnone.
  assert (Hq : _parent_queryset_es self w = (Err AttributeError, w)).
  { unfold _parent_queryset_es, bind. by rewrite Hpv, Hnone. }
  split.
  - rewrite get_item_es_unfold. unfold bind. by rewrite Hq.
  - unfold get_collection_es, bind. by rewrite Hq.
Qed.
End ItemResolution.

Section ItemResolutionConcrete.
Import Toy.

#[local] Abbreviation es_books := (books_view ESCollectionView md).
#[local] Abbreviation db_books := (books_view CollectionView md).

Ltac holds := apply (bool_decide_unpack _); vm_compute; exact I.
Ltac runs := vm_compute; reflexivity.

Lemma get_item_rejects_keywords_first_witness :
  get_item db_books {[ "id" := VInt 7 ]} (world_of ∅ library) =
    (Err IndexError, world_of ∅ library).
Proof. apply get_item_rejects_keywords_first. runs. Defined.

Lemma parent_failure_propagates_witness :
  let w := world_of ∅ (∅ : Store) in
  index db_books ∅ w =
    (Err (JHTTPNotFound "Author"),
     logged (CGetResource "Author" {[ "id" := VStr "1" ]}) w) ∧
  get_item_es es_books {[ "book_id" := VInt 7 ]} w =
    (Err (JHTTPNotFound "Author"),
     logged (CESGetCollection "Author"
               (<["__raise_on_empty" := VBool true]>
                  (<["_limit" := VInt 1]> {[ "id" := VStr "1" ]}))) w).
Proof.
  intros w. split.
  - edestruct (parent_failure_propagates db_books _ ∅ w
                 (logged (CGetResource "Author" {[ "id" := VStr "1" ]}) w)
                 (JHTTPNotFound "Author") eq_refl) as [Hdb _].
    apply Hdb. runs.
  - edestruct (parent_failure_propagates es_books _
                 {[ "book_id" := VInt 7 ]} w
                 (logged (CESGetCollection "Author"
                            (<["__raise_on_empty" := VBool true]>
                               (<["_limit" := VInt 1]>
                                  {[ "id" := VStr "1" ]}))) w)
                 (JHTTPNotFound "Author") eq_refl) as [_ Hes].
    apply Hes; [by eexists | runs].
Defined.

Lemma get_item_within_parent_relation_witness :
  let w := world_of ∅ library in
  get_item db_books {[ "book_id" := VInt 7 ]} w =
    (Ok (VInt 7),
     logged (CFilterFirst "Book" (VList [VInt 7; VInt 8])
               {[ "id" := VInt 7 ]})
       (logged (CGetResource "Author" {[ "id" := VStr "1" ]}) w)).
Proof.
  intros w.
  erewrite (get_item_within_parent_relation db_books _
              {[ "book_id" := VInt 7 ]} {[ "id" := VInt 7 ]} w
              (logged (CGetResource "Author" {[ "id" := VStr "1" ]}) w)
              _ (VList [VInt 7; VInt 8]) eq_refl);
    [runs | runs | runs | runs | runs | runs | discriminate].
Defined.

Lemma subresource_item_ignores_relation_witness :
  let w := world_of ∅ library in
  calls (get_item profile_view md w).2 =
    [CGetResource "Author" {[ "id" := VStr "1" ]};
     CGetResource "Author" {[ "id" := VStr "1" ]}].
Proof.
  intros w.
  erewrite (subresource_item_ignores_relation profile_view _ md
              {[ "id" := VStr "1" ]} w
              (logged (CGetResource "Author" {[ "id" := VStr "1" ]}) w)
              _ eq_refl); [runs | runs | runs | runs].
Defined.

Lemma grandparent_is_looked_up_by_none_witness :
  ∃ rest,
    calls (get_item (Deep.chapters_view Deep.md)
             {[ "chapter_id" := VInt 3 ]} (world_of ∅ library)).2 =
    [] ++ CGetResource "Author" {[ "id" := VNone ]} :: rest.
Proof.
  eapply (grandparent_is_looked_up_by_none (Deep.chapters_view Deep.md)
            _ _ {[ "chapter_id" := VInt 3 ]} {[ "id" := VInt 3 ]}
            "id" "id" (world_of ∅ library) eq_refl eq_refl eq_refl).
  - intros H. vm_compute in H. discriminate.
  - runs.
  - reflexivity.
  - reflexivity.
Defined.

Lemma index_read_needs_index_parent_witness :
  let w := world_of ∅ library in
  get_item_es Deep.mixed_books_view {[ "book_id" := VInt 7 ]} w =
    (Err AttributeError, w) ∧
  get_collection_es Deep.mixed_books_view ∅ w = (Err AttributeError, w).
Proof.
  intros w. split.
  - eapply (index_read_needs_index_parent Deep.mixed_books_view _
              {[ "book_id" := VInt 7 ]} w eq_refl). reflexivity.
  - eapply (index_read_needs_index_parent Deep.mixed_books_view _ ∅ w
              eq_refl). reflexivity.
Defined.
End ItemResolutionConcrete.

(** ** More on the index reads *)

Section IndexEdges.
Context {Store : Type} {B : Backend Store}.

(** X11: past the membership check [get_item_es] can still fail with
    [IndexError], in two ways: an id parameter whose name has no
    underscore makes [resolve_kw] raise once the parent is resolved and
    before any query for the item; and an index that answers the query
    with an empty list, instead of raising, makes [[0]] raise. *)
Theorem get_item_es_index_errors (self : view) (kwargs : dict)
    (w w1 : world Store) (restriction : option (list string)) :
  _parent_queryset_es self w = (Ok restriction, w1) →
  let item_id := py_str (dict_get kwargs (id_name (_resource self))) in
  (restriction = None ∨ ∃ ids, restriction = Some ids ∧ item_id ∈ ids) →
  (after_first underscore (id_name (_resource self)) = None →
     get_item_es self kwargs w = (Err IndexError, w1))
  ∧
  (∀ field,
     after_first underscore (id_name (_resource self)) = Some field →
     let q := <["__raise_on_empty" := VBool true]>
                (<["_limit" := VInt 1]> {[ field := VStr item_id ]}) in
     es_get_collection (_model_class (cls self)) q (store w1) = Ok [] →
     get_item_es self kwargs w =
       (Err IndexError,
        logged (CESGetCollection (_model_class (cls self)) q) w1)).
Proof.
  intros Hres item_id Hpass. split.
  - intros Hnone. rewrite get_item_es_unfold. unfold bind at 1.
    rewrite Hres. unfold lookup_item_es, bind. fold item_id.
    assert (Hchk : match restriction with
                   | Some ids =>
                       if bool_decide (item_id ∈ ids) then ret tt
                       else raise (JHTTPNotFound
                              (not_found_msg (_model_class (cls self))
                                 item_id))
                   | None => ret tt
                   end w1 = (Ok tt, w1)).
    { destruct Hpass as [->|(ids & -> & Hin)]; [done|].
      by rewrite bool_decide_eq_true_2. }
    rewrite Hchk, resolve_kw_singleton. unfold split1_second.
    by rewrite Hnone.
  - intros field Hf q Hempty. rewrite get_item_es_unfold. unfold bind at 1.
    rewrite Hres. fold item_id.
    rewrite (lookup_item_es_query _ _ field) by done.
    fold q. by rewrite Hempty.
Qed.

Lemma es_query_params (self : view) (w : world Store) :
  _params (es_query self w).2 = delete "q" (_params w) ∧
  store (es_query self w).2 = store w.
Proof.
  unfold es_query, _get_raw_terms, es_send.
  unfold bind, get_params, set_params, lift, ret, read, logged,
    with_keyword. simpl.
  destruct (_params w !! "q") as [v|] eqn:Hq; simpl.
  - destruct v as [| | |t| |]; simpl; try done.
    rewrite lookup_delete_ne by done.
    by destruct (_params w !! "_raw_terms").
  - rewrite (delete_id _ _ Hq).
    by destruct (_params w !! "_raw_terms").
Qed.

(** X12: filters the query cannot be built from raise [TypeError] and no
    query is sent: a value under ['q'] that is not a string (two [q]
    parameters arrive as a list) fails in [join], and a ['_raw_terms']
    filter clashes with the keyword argument of the call.  In both cases
    ['q'] is already popped from the view's [_params], and the parent's
    ids already stored under ['id']. *)
Theorem malformed_filters_send_no_query (self : view) (kwargs : dict)
    (w w1 : world Store) (restriction : option (list string)) :
  _parent_queryset_es self w = (Ok restriction, w1) →
  restriction ≠ Some [] →
  ((∃ v, _params w !! "q" = Some v ∧ ∀ t, v ≠ VStr t) ∨
   (match _params w !! "q" with
    | Some v => ∃ t, v = VStr t
    | None => True
    end ∧ is_Some (_params w !! "_raw_terms"))) →
  get_collection_es self kwargs w =
    (Err TypeError,
     {| _params := delete "q" (restricted_params restriction (_params w));
        store := store w1; calls := calls w1 |}).
Proof.
  intros Hres Hne Hbad.
  destruct (get_collection_es_after self kwargs w w1 restriction Hres Hne)
    as [_ ->].
  assert (Hq : restricted_params restriction (_params w) !! "q"
               = _params w !! "q").
  { destruct restriction; [|done]. simpl. by rewrite lookup_insert_ne. }
  assert (Hrt : restricted_params restriction (_params w) !! "_raw_terms"
                = _params w !! "_raw_terms").
  { destruct restriction; [|done]. simpl. by rewrite lookup_insert_ne. }
  unfold es_query, _get_raw_terms, es_send.
  unfold bind, get_params, set_params, lift, ret, read, logged,
    with_keyword. simpl. rewrite Hq.
  destruct Hbad as [(v & Hv & Hns)|[Hstr [v Hv]]].
  - rewrite Hv. simpl. destruct v; try done. by destruct (Hns s).
  - destruct (_params w !! "q") as [v'|] eqn:Hq'.
    + destruct Hstr as [t ->]. simpl.
      rewrite lookup_delete_ne by done. by rewrite Hrt, Hv.
    + simpl. rewrite Hrt, Hv. simpl.
      by rewrite delete_id by (by rewrite Hq).
Qed.

(** X13: an index collection read changes the view's own filters for
    good: afterwards [_params] has lost ['q'] and, under a non-empty
    parent restriction, binds ['id'] to the parent's ids, whether or not
    the query went through; the store is untouched. *)
Theorem index_read_rewrites_params (self : view) (kwargs : dict)
    (w w1 : world Store) (restriction : option (list string)) :
  _parent_queryset_es self w = (Ok restriction, w1) →
  restriction ≠ Some [] →
  _params (get_collection_es self kwargs w).2 =
    delete "q" (restricted_params restriction (_params w)) ∧
  store (get_collection_es self kwargs w).2 = store w.
Proof.
  intros Hres Hne.
  destruct (get_collection_es_after self kwargs w w1 restriction Hres Hne)
    as [_ ->].
  destruct (es_query_params self
              {| _params := restricted_params restriction (_params w);
                 store := store w1; calls := calls w1 |}) as [-> ->].
  split; [done|]. simpl.
  pose proof (_parent_queryset_es_reader self w) as (_ & Hs & _).
  by rewrite Hres in Hs.
Qed.
End IndexEdges.

(** ** More on the store reads and the bulk operations *)

Section StoreEdges.
Context {Store : Type} {B : Backend Store}.

Lemma get_collection_frame (self : view) (kwargs : dict)
    (w : world Store) :
  _params (get_collection self kwargs w).2 = dict_update (_params w) kwargs ∧
  store (get_collection self kwargs w).2 = store w.
Proof.
  unfold get_collection, bind at 1 2, get_params at 1, set_params. simpl.
  set (w0 := {| _params := dict_update (_params w) kwargs;
               store := store w; calls := calls w |}).
  assert (Hr : reader (let* objects := _parent_queryset self in
                       let* p := get_params in
                       match objects with
                       | VNone =>
                           read (CGetCollection (_model_class (cls self)) p)
                             (model_get_collection
                                (_model_class (cls self)) p)
                       | _ =>
                           read (CFilterObjects (_model_class (cls self))
                                   objects p)
                             (model_filter_objects
                                (_model_class (cls self)) objects p)
                       end)).
  { apply reader_bind; [apply _parent_queryset_reader|]. intros objects.
    apply reader_bind; [apply reader_get_params|]. intros p.
    destruct objects; auto with reader. }
  destruct (Hr w0) as (Hp & Hs & _). by split.
Qed.

(** X14: the keyword arguments of [get_collection] are merged into the
    view's [_params] and stay there: afterwards [_params] is the old
    filters updated with the keywords (keywords win), whatever the
    outcome, and the store is untouched. *)
Theorem get_collection_keeps_keywords (self : view) (kwargs : dict)
    (w : world Store) :
  _params (get_collection self kwargs w).2 = dict_update (_params w) kwargs ∧
  store (get_collection self kwargs w).2 = store w.
Proof. apply get_collection_frame. Qed.

(** X15: when the collection cannot be resolved, [delete_many] and
    [update_many] raise the resolution's error in the state it left and
    mutate nothing. *)
Theorem bulk_operations_stop_on_failed_resolution (self : view)
    (kwargs : dict) (w w1 : world Store) (e : exn) :
  (get_collection self ∅ w = (Err e, w1) →
     delete_many self kwargs w = (Err e, w1) ∧ reads_only w w1)
  ∧
  (get_collection self {[ "_limit" := dict_get (_params w) "_limit" ]}
     {| _params := delete "_limit" (_params w); store := store w;
        calls := calls w |} = (Err e, w1) →
     update_many self kwargs w = (Err e, w1) ∧ store w1 = store w).
Proof.
  split; intros Hcoll.
  - split.
    + unfold delete_many, bind at 1. by rewrite Hcoll.
    + pose proof (get_collection_all_reads self w) as H.
      by rewrite Hcoll in H.
  - split.
    + unfold update_many, bind at 1 2, get_params at 1, set_params at 1.
      simpl. unfold bind at 1. unfold dict_get in Hcoll. by rewrite Hcoll.
    + pose proof (get_collection_frame self
                    {[ "_limit" := dict_get (_params w) "_limit" ]}
                    {| _params := delete "_limit" (_params w);
                       store := store w; calls := calls w |}) as [_ Hs].
      by rewrite Hcoll in Hs.
Qed.

(** X16: [update_many] has no confirmation phase.  Once the collection is
    resolved it issues one [_update_many] on the resolved objects with
    the view's [_params] as payload, whatever [needs_confirmation] says,
    and on success reports the number of resolved objects. *)
Theorem update_many_is_immediate (self : view) (kwargs : dict)
    (w w1 : world Store) (objects : list value) :
  get_collection self {[ "_limit" := dict_get (_params w) "_limit" ]}
    {| _params := delete "_limit" (_params w); store := store w;
       calls := calls w |} = (Ok objects, w1) →
  let model := _model_class (cls self) in
  let upd := model_update_many model objects (_params w1) (store w1) in
  update_many self kwargs w =
    (rbind upd.1
       (λ _, Ok (JHTTPOk (count_msg "Updated" (count objects) model))),
     {| _params := _params w1; store := upd.2;
        calls := calls w1 ++ [CUpdateMany model objects (_params w1)] |}).
Proof.
  intros Hcoll model upd.
  unfold update_many, bind at 1 2, get_params at 1, set_params at 1.
  simpl. unfold bind at 1. unfold dict_get in Hcoll. rewrite Hcoll.
  unfold bind, get_params, write, ret. simpl. fold model upd.
  by destruct upd.1.
Qed.

(** X17: [show] on a singular view and [index] on an attribute view read
    the attribute without a default: when the parent object is found but
    has no such attribute, both raise [AttributeError] (the resolver, on
    the same object, would answer [None]). *)
Theorem attribute_reads_need_the_attribute (self : view) (kwargs : dict)
    (w w1 : world Store) (attrs : dict) :
  get_item self kwargs w = (Ok (VObj attrs), w1) →
  attrs !! singular_attr self = None →
  singular_show self kwargs w = (Err AttributeError, w1) ∧
  attribute_index self kwargs w = (Err AttributeError, w1) ∧
  getattr_default (VObj attrs) (singular_attr self) VNone = VNone.
Proof.
  intros Hitem Habs.
  unfold singular_show, attribute_index, bind, lift. rewrite Hitem.
  simpl. by rewrite Habs.
Qed.

Lemma append_snoc (acc : string) (a : Ascii.ascii) (s : string) :
  (acc +:+ String a EmptyString) +:+ s = acc +:+ String a s.
Proof.
  induction acc as [|b acc IH]; [done|].
  change (String b ((acc +:+ String a "") +:+ s)
          = String b (acc +:+ String a s)).
  by f_equal.
Qed.

Lemma append_empty (acc : string) : acc = acc +:+ "".
Proof.
  induction acc as [|b acc IH]; [done|].
  change (String b acc = String b (acc +:+ "")). by f_equal.
Qed.

Lemma last_segment_from_plain (c : Ascii.ascii) (s acc : string) :
  c ∉ String.list_ascii_of_string s →
  last_segment_from acc c s = acc +:+ s.
Proof.
  revert acc. induction s as [|a s IH]; simpl; intros acc.
  - intros _. apply append_empty.
  - rewrite not_elem_of_cons. intros [Hne Hs].
    destruct (Ascii.eqb a c) eqn:E.
    + apply Ascii.eqb_eq in E. congruence.
    + rewrite IH by done. apply append_snoc.
Qed.

Lemma last_segment_from_app (c : Ascii.ascii) (pre name acc : string) :
  c ∉ String.list_ascii_of_string name →
  last_segment_from acc c (pre +:+ String c name) = name.
Proof.
  intros Hname. revert acc. induction pre as [|a pre IH]; simpl; intros acc.
  - rewrite Ascii.eqb_refl. by rewrite last_segment_from_plain.
  - destruct (Ascii.eqb a c); apply IH.
Qed.

(** X18: the attribute a singular or attribute view works on is the last
    segment of the request path: for a path [<prefix>/<name>] with no
    slash in [<name>] it is [<name>], whatever the prefix; a path without
    any slash is taken whole. *)
Theorem singular_attr_is_last_segment (self : view) (name : string) :
  slash ∉ String.list_ascii_of_string name →
  (∀ pre, path (req self) = pre +:+ "/" +:+ name →
     singular_attr self = name) ∧
  (path (req self) = name → singular_attr self = name).
Proof.
  intros Hname. unfold singular_attr, last_segment. split.
  - intros pre ->. change ("/" +:+ name) with (String slash name).
    by apply last_segment_from_app.
  - intros ->. by rewrite last_segment_from_plain.
Qed.
End StoreEdges.


Section EdgesConcrete.
Import Toy.

#[local] Abbreviation es_books := (books_view ESCollectionView md).
#[local] Abbreviation db_books := (books_view CollectionView md).

Ltac holds := apply (bool_decide_unpack _); vm_compute; exact I.
Ltac runs := vm_compute; reflexivity.

Lemma get_item_es_index_errors_witness :
  get_item_es Deep.flat_view {[ "id" := VInt 7 ]} (world_of ∅ library) =
    (Err IndexError, world_of ∅ library) ∧
  (get_item_es (B := Deep.lenient) (authors_view ESCollectionView)
     {[ "author_id" := VInt 1 ]} (world_of ∅ (∅ : Store))).1 =
    Err IndexError.
Proof.
  split.
  - destruct (get_item_es_index_errors Deep.flat_view {[ "id" := VInt 7 ]}
                (world_of ∅ library) (world_of ∅ library) None eq_refl)
      as [Hflat _]; [by left|].
    apply Hflat. reflexivity.
  - destruct (get_item_es_index_errors (B := Deep.lenient)
                (authors_view ESCollectionView)
                {[ "author_id" := VInt 1 ]} (world_of ∅ (∅ : Store))
                (world_of ∅ (∅ : Store)) None eq_refl)
      as [_ Hempty]; [by left|].
    rewrite (Hempty "id"); [reflexivity | reflexivity | runs].
Defined.

Lemma malformed_filters_send_no_query_witness :
  let two := VList [VStr "a"; VStr "b"] in
  get_collection_es (authors_view ESCollectionView) ∅
    (world_of {[ "q" := two ]} library) =
    (Err TypeError, world_of ∅ library) ∧
  get_collection_es (authors_view ESCollectionView) ∅
    (world_of {[ "_raw_terms" := VStr "x" ]} library) =
    (Err TypeError, world_of {[ "_raw_terms" := VStr "x" ]} library).
Proof.
  intros two. split.
  - rewrite (malformed_filters_send_no_query
               (authors_view ESCollectionView) ∅
               (world_of {[ "q" := two ]} library)
               (world_of {[ "q" := two ]} library) None eq_refl);
      [runs | done |].
    left. exists two. split; [reflexivity | done].
  - rewrite (malformed_filters_send_no_query
               (authors_view ESCollectionView) ∅
               (world_of {[ "_raw_terms" := VStr "x" ]} library)
               (world_of {[ "_raw_terms" := VStr "x" ]} library)
               None eq_refl); [runs | done |].
    right. split; [exact I | by eexists].
Defined.

Lemma index_read_rewrites_params_witness :
  _params (get_collection_es es_books ∅
             (world_of (<["q" := VStr "x"]> {[ "id" := VStr "99" ]})
                library)).2 =
    {[ "id" := VList [VStr "7"; VStr "8"] ]}.
Proof.
  destruct (index_read_rewrites_params es_books ∅
              (world_of (<["q" := VStr "x"]> {[ "id" := VStr "99" ]})
                 library)
              (_parent_queryset_es es_books
                 (world_of (<["q" := VStr "x"]> {[ "id" := VStr "99" ]})
                    library)).2
              (Some ["7"; "8"])) as [Hp _]; [runs | done |].
  rewrite Hp. runs.
Defined.

Lemma bulk_operations_stop_on_failed_resolution_witness :
  let w := world_of ∅ (∅ : Store) in
  let w1 := logged (CGetResource "Author" {[ "id" := VStr "1" ]}) w in
  delete_many db_books ∅ w = (Err (JHTTPNotFound "Author"), w1) ∧
  (update_many db_books ∅ w).1 = Err (JHTTPNotFound "Author").
Proof.
  intros w w1. split.
  - destruct (bulk_operations_stop_on_failed_resolution db_books ∅ w w1
                (JHTTPNotFound "Author")) as [Hdel _].
    apply Hdel. runs.
  - destruct (bulk_operations_stop_on_failed_resolution db_books ∅ w
                (get_collection db_books {[ "_limit" := VNone ]} w).2
                (JHTTPNotFound "Author")) as [_ Hupd].
    destruct Hupd as [-> _]; [runs | reflexivity].
Defined.

Lemma update_many_is_immediate_witness :
  let av := authors_view CollectionView in
  let w := world_of {[ "name" := VStr "x" ]} library in
  needs_confirmation (_params w) = true ∧
  (update_many av ∅ w).1 = Ok (JHTTPOk "Updated 1 Author(s) objects") ∧
  calls (update_many av ∅ w).2 =
    [CGetCollection "Author" (<["_limit" := VNone]> {[ "name" := VStr "x" ]});
     CUpdateMany "Author" (rows "Author" library)
       (<["_limit" := VNone]> {[ "name" := VStr "x" ]})].
Proof.
  intros av w. split; [reflexivity|].
  rewrite (update_many_is_immediate av ∅ w
             (get_collection av {[ "_limit" := VNone ]} w).2
             (rows "Author" library)); [split; runs | runs].
Defined.

Lemma attribute_reads_need_the_attribute_witness :
  let w := world_of ∅ bare in
  (singular_show profile_view md w).1 = Err AttributeError ∧
  (attribute_index Deep.tags_view md w).1 = Err AttributeError.
Proof.
  intros w. split.
  - destruct (attribute_reads_need_the_attribute profile_view md w
                (get_item profile_view md w).2 {[ "id" := VInt 1 ]})
      as (-> & _ & _); [runs | runs | reflexivity].
  - destruct (attribute_reads_need_the_attribute Deep.tags_view md w
                (get_item Deep.tags_view md w).2 {[ "id" := VInt 1 ]})
      as (_ & -> & _); [runs | runs | reflexivity].
Defined.

Lemma singular_attr_is_last_segment_witness :
  singular_attr profile_view = "profile".
Proof.
  destruct (singular_attr_is_last_segment profile_view "profile")
    as [Hlast _]; [holds|].
  apply (Hlast "/authors/1"). reflexivity.
Defined.
End EdgesConcrete.

(** ** More on generated views *)

Section GeneratedDispatch.
Variable hook : string → result (dict → result value).

Lemma listed_attr_is_no_property (attrs : list string) (op : string) :
  op ∈ attrs → op ∉ missing_attrs attrs.
Proof.
  intros Hin. unfold missing_attrs. rewrite elem_of_difference.
  intros [_ Hnot]. apply Hnot. by apply elem_of_list_to_set.
Qed.

Lemma canonical_missing (attrs : list string) (name : string) :
  name ∈ missing_attrs attrs → name ∈ valid_attrs.
Proof.
  unfold missing_attrs. rewrite elem_of_difference.
  intros [H _]. by apply elem_of_list_to_set in H.
Qed.

Lemma undefined_goes_to_fallback (V : RESTView) (op : string) :
  find_method (base_view_cls V) op = None →
  view_getattr hook V op = rbind (hook op) (λ f, Ok (Inherited f)).
Proof.
  intros H. unfold view_getattr. rewrite H. by case_decide.
Qed.

(** X19: a generated index-backed collection view reads from the index
    and writes through the store: of the operations it is given, [index]
    and [show] run the methods of [ESCollectionView] and the five others
    those inherited from [CollectionView]. *)
Theorem es_view_reads_index_writes_store (model : string)
    (attrs : list string) (op : string) (kwargs : dict) :
  op ∈ attrs →
  ∃ V : RESTView,
    generate_rest_view model (Some attrs) true false false = Ok V ∧
    (op ∈ ["index"; "show"] →
       invoke hook V op kwargs = Runs ESCollectionView op) ∧
    (op ∈ ["create"; "update"; "delete"; "update_many"; "delete_many"] →
       invoke hook V op kwargs = Runs CollectionView op).
Proof.
  intros Hin. eexists. split; [reflexivity|].
  pose proof (listed_attr_is_no_property attrs op Hin) as Hnot.
  split; intros Hop; unfold invoke, view_getattr; simpl;
    rewrite decide_False by done;
    repeat (apply elem_of_cons in Hop as [->|Hop]; [reflexivity|]);
    by apply elem_of_nil in Hop.
Qed.

(** X20: generation only ever rebinds the seven canonical names, so the
    helpers survive on every generated view, whatever [attrs] lists:
    [get_item] is always [BaseView]'s, and [get_item_es] exists exactly on
    the index-backed collection views (not singular, not attribute, and
    [es_based]) -- the only ones an index-backed child can sit under. *)
Theorem generation_spares_helpers (model : string) (attrs : list string)
    (es_based attr_view singular : bool) :
  ∃ V : RESTView,
    generate_rest_view model (Some attrs) es_based attr_view singular
      = Ok V ∧
    attr_errors V ⊆ list_to_set valid_attrs ∧
    view_getattr hook V "get_item" = Ok (Method BaseView "get_item") ∧
    find_method (base_view_cls V) "get_item_es" =
      (if singular || attr_view || negb es_based then None
       else Some ESBaseView).
Proof.
  eexists. split; [reflexivity|]. split; [|split].
  - intros name H. cbn [attr_errors] in H. apply elem_of_list_to_set.
    by eapply canonical_missing.
  - unfold view_getattr. cbn [attr_errors base_view_cls].
    rewrite decide_False.
    + by destruct singular, attr_view, es_based.
    + intros H. apply canonical_missing in H.
      revert H. apply (bool_decide_unpack _). vm_compute. exact I.
  - cbn [base_view_cls]. by destruct singular, attr_view, es_based.
Qed.

(** X21: listing an operation does not implement it.  On a singular view
    [index], [update_many] and [delete_many], and on an attribute view
    everything but [index] and [create], are answered by the base view's
    fallback whether or not [attrs] lists them; [singular] takes
    precedence over [attr_view], and both over [es_based]. *)
Theorem listing_does_not_implement (model : string) (attrs : list string)
    (es_based attr_view singular : bool) (op : string) :
  (singular = true ∧ op ∈ ["index"; "update_many"; "delete_many"]) ∨
  (singular = false ∧ attr_view = true ∧
   op ∈ ["show"; "update"; "delete"; "update_many"; "delete_many"]) →
  ∃ V : RESTView,
    generate_rest_view model (Some attrs) es_based attr_view singular
      = Ok V ∧
    view_getattr hook V op = rbind (hook op) (λ f, Ok (Inherited f)).
Proof.
  intros H. eexists. split; [reflexivity|].
  apply undefined_goes_to_fallback. simpl.
  destruct H as [[-> Hop]|(-> & -> & Hop)]; simpl;
    repeat (apply elem_of_cons in Hop as [->|Hop]; [reflexivity|]);
    by apply elem_of_nil in Hop.
Qed.
End GeneratedDispatch.

Section GeneratedDispatchConcrete.
Import Toy.

Lemma es_view_reads_index_writes_store_witness :
  ∃ V : RESTView,
    generate_rest_view "Book" (Some ["index"; "delete_many"])
      true false false = Ok V ∧
    invoke hook V "index" ∅ = Runs ESCollectionView "index" ∧
    invoke hook V "delete_many" ∅ = Runs CollectionView "delete_many".
Proof.
  destruct (es_view_reads_index_writes_store hook "Book"
              ["index"; "delete_many"] "index" ∅) as (V & HV & Hread & _).
  { apply (bool_decide_unpack _). vm_compute. exact I. }
  destruct (es_view_reads_index_writes_store hook "Book"
              ["index"; "delete_many"] "delete_many" ∅)
    as (V' & HV' & _ & Hwrite).
  { apply (bool_decide_unpack _). vm_compute. exact I. }
  rewrite HV in HV'. injection HV' as <-.
  exists V. split; [exact HV|]. split.
  - apply Hread. apply (bool_decide_unpack _). vm_compute. exact I.
  - apply Hwrite. apply (bool_decide_unpack _). vm_compute. exact I.
Defined.

Lemma listing_does_not_implement_witness :
  ∃ V : RESTView,
    generate_rest_view "Author" (Some ["index"; "show"]) true false true
      = Ok V ∧
    invoke hook V "index" ∅ = Raises JHTTPMethodNotAllowed.
Proof.
  destruct (listing_does_not_implement hook "Author" ["index"; "show"]
              true false true "index") as (V & HV & Hget).
  { left. split; [reflexivity|].
    apply (bool_decide_unpack _). vm_compute. exact I. }
  exists V. split; [exact HV|]. unfold invoke. rewrite Hget. reflexivity.
Defined.
End GeneratedDispatchConcrete.

(** ** Authentication set-up *)

Section AuthFacts.
Import Auth.

Lemma policies_lookup (t : string)
    (g : dict → dict → res policy * list action) :
  AUTHENTICATION_POLICIES !! t = Some g →
  g = _setup_apikey_policy ∨ g = _setup_ticket_policy.
Proof.
  unfold AUTHENTICATION_POLICIES. rewrite lookup_insert.
  case_decide; [intros [= <-]; by left|].
  rewrite lookup_singleton. case_decide; [intros [= <-]; by right | done].
Qed.



(** X23: a secured API whose set-up returns has both policies set, the
    authentication policy first and the ACL authorization policy last,
    and never before; the resources added on the way all sit under the
    ['auth'] prefix with the authentication ACL factory, a [register]
    resource among them. *)
Theorem secured_setup_sets_both_policies (registry : dict)
    (raml : raml_root) (log : list action) :
  setup_auth_policies registry raml = (Done tt, log) →
  List.filter truthy (default [] (secured_by raml)) ≠ [] →
  ∃ (pre : list action) (p : policy),
    log = pre ++ [SetAuthenticationPolicy p;
                  SetAuthorizationPolicy "ACLAuthorizationPolicy"] ∧
    Forall (λ a, sets_policy a = false) pre ∧
    Forall (λ a, match a with
                 | RootAdd _ _ prefix factory =>
                     prefix = "auth" ∧
                     factory = "nefertari.acl.AuthenticationACL"
                 | _ => True
                 end) pre ∧
    ∃ view_base,
      RootAdd "register" view_base "auth" "nefertari.acl.AuthenticationACL"
        ∈ pre.
Proof.
  unfold setup_auth_policies.
  destruct (List.filter truthy (default [] (secured_by raml)))
    as [|first rest]; [done|]. intros H _. revert H.
  destruct (security_schemes raml) as [l|]; [|done].
  destruct (contains (schemes_by_name l) first) as [[|]|e']; [|done..].
  destruct (getitem (schemes_by_name l) first) as [sch|e']; [|done].
  destruct (AUTHENTICATION_POLICIES !! type sch) as [g|] eqn:Hg; [|done].
  apply policies_lookup in Hg. destruct Hg as [-> | ->].
  - simpl. intros [= <-]. eexists [_; _; _; _; _; _], _.
    split; [reflexivity|].
    split; [by repeat constructor|]. split; [by repeat constructor|].
    eexists. do 3 (apply elem_of_cons; right). apply elem_of_cons. by left.
  - unfold _setup_ticket_policy.
    destruct (default ∅ (settings sch) !! "secret") as [secret|]; [|done].
    destruct (getitem registry secret) as [v|e']; [|done].
    simpl. intros [= <-]. eexists [_; _; _; _; _; _], _.
    split; [reflexivity|].
    split; [by repeat constructor|]. split; [by repeat constructor|].
    eexists. do 3 (apply elem_of_cons; right). apply elem_of_cons. by left.
Qed.

(** X24: only the first usable entry of [secured_by] counts: entries
    with a false truth value ([None], the empty string) are skipped, and
    whatever follows the first remaining entry changes nothing. *)
Theorem only_first_secured_by_counts (registry : dict) (l : list value)
    (first : value) (rest : list value)
    (schemes : option (list scheme)) :
  List.filter truthy l = first :: rest →
  setup_auth_policies registry
    {| secured_by := Some l; security_schemes := schemes |} =
  setup_auth_policies registry
    {| secured_by := Some [first]; security_schemes := schemes |}.
Proof.
  intros Hl.
  assert (Ht : truthy first = true).
  { assert (Hin : In first (List.filter truthy l))
      by (rewrite Hl; by left).
    by apply List.filter_In in Hin as [_ ?]. }
  unfold setup_auth_policies. simpl. by rewrite Hl, Ht.
Qed.


(** X26: [create_system_user] never fails on an incomplete registry: if
    any of [system.user], [system.password], [system.email] is missing it
    returns normally having only logged, without calling
    [get_or_create]; and it commits exactly when all three are present
    and [get_or_create], called with the user name and with the password,
    the email and the group [admin] as defaults, reports a new user. *)
Theorem system_user_needs_all_settings
    (get_or_create : value → dict → creation) (registry : dict) :
  let out := create_system_user get_or_create registry in
  (∀ k, k ∈ ["system.user"; "system.password"; "system.email"] →
     registry !! k = None →
     out.1 = Done tt ∧ Forall (λ a, configures a = false) out.2) ∧
  (Commit ∈ out.2 ↔
   ∃ s_user s_pass s_email,
     registry !! "system.user" = Some s_user ∧
     registry !! "system.password" = Some s_pass ∧
     registry !! "system.email" = Some s_email ∧
     get_or_create s_user
       (<["password" := s_pass]>
          (<["email" := s_email]> {[ "groups" := VList [VStr "admin"] ]}))
     = Created true).
Proof.
  intros out. unfold out, create_system_user. split.
  - intros k Hk Hnone.
    destruct (registry !! "system.user") as [u|] eqn:Hu;
      [|split; [done | by repeat constructor]].
    destruct (registry !! "system.password") as [p|] eqn:Hp;
      [|split; [done | by repeat constructor]].
    destruct (registry !! "system.email") as [m|] eqn:Hm;
      [|split; [done | by repeat constructor]].
    repeat (apply elem_of_cons in Hk as [->|Hk]; [congruence|]).
    by apply elem_of_nil in Hk.
  - destruct (registry !! "system.user") as [u|].
    2:{ split; [|by intros (? & ? & ? & ? & _)].
        intros H. simpl in H.
        repeat (apply elem_of_cons in H as [?|H]; [done|]).
        by apply elem_of_nil in H. }
    destruct (registry !! "system.password") as [p|].
    2:{ split; [|by intros (? & ? & ? & _ & ? & _)].
        intros H. simpl in H.
        repeat (apply elem_of_cons in H as [?|H]; [done|]).
        by apply elem_of_nil in H. }
    destruct (registry !! "system.email") as [m|].
    2:{ split; [|by intros (? & ? & ? & _ & _ & ? & _)].
        intros H. simpl in H.
        repeat (apply elem_of_cons in H as [?|H]; [done|]).
        by apply elem_of_nil in H. }
    destruct (get_or_create u _) as [[|]|e] eqn:Hgoc.
    + split; [intros _; by exists u, p, m|]. intros _. simpl.
      do 2 (apply elem_of_cons; right). apply elem_of_cons. by left.
    + split; [|intros (? & ? & ? & [= <-] & [= <-] & [= <-] & ?);
                 congruence].
      intros H. simpl in H.
      repeat (apply elem_of_cons in H as [?|H]; [done|]).
      by apply elem_of_nil in H.
    + split; [|intros (? & ? & ? & [= <-] & [= <-] & [= <-] & ?);
                 congruence].
      intros H. destruct e; simpl in H;
        repeat (apply elem_of_cons in H as [?|H]; [done|]);
        by apply elem_of_nil in H.
Qed.
End AuthFacts.

Section AuthConcrete.
Import Auth.

Ltac runs := vm_compute; reflexivity.


Lemma secured_setup_sets_both_policies_witness :
  ∃ (pre : list action) (p : policy),
    (setup_auth_policies registry api).2 =
      pre ++ [SetAuthenticationPolicy p;
              SetAuthorizationPolicy "ACLAuthorizationPolicy"] ∧
    Forall (λ a, sets_policy a = false) pre.
Proof.
  destruct (secured_setup_sets_both_policies registry api
              (setup_auth_policies registry api).2)
    as (pre & p & Hlog & Hpre & _); [runs | by vm_compute |].
  by exists pre, p.
Defined.

Lemma only_first_secured_by_counts_witness :
  setup_auth_policies registry api =
  setup_auth_policies registry
    {| secured_by := Some [VStr "tickets"];
       security_schemes := Some [ticket_scheme] |}.
Proof.
  apply (only_first_secured_by_counts registry
           [VNone; VStr "tickets"; VStr "other"] (VStr "tickets")
           [VStr "other"] (Some [ticket_scheme])).
  reflexivity.
Defined.


Lemma system_user_needs_all_settings_witness :
  (create_system_user (λ _ _, Created true) registry).1 = Done tt ∧
  Forall (λ a, configures a = false)
    (create_system_user (λ _ _, Created true) registry).2.
Proof.
  destruct (system_user_needs_all_settings (λ _ _, Created true) registry)
    as [Hmissing _].
  apply (Hmissing "system.email"); [|runs].
  do 2 (apply elem_of_cons; right). apply elem_of_cons. by left.
Defined.
End AuthConcrete.
